(** * dejavu: the SQLite storage handler

    A shallow embedding of [dejavu/database_handler/sqlite_database.py]:
    the statement catalog of [SQLiteDatabase], the scoped session [Cursor]
    (a context manager around one [sqlite3] connection) with its
    connection cache, and [SQLiteDatabase.insert_song] / [after_fork].

    The Python objects the module works with are kept in an explicit
    store ([World]): [queue.Queue] objects, [sqlite3] connections and
    cursors, [Cursor] instances, the class attribute [Cursor._cache] and
    the database files.  Object identity is the index in the store, so
    aliasing (the same connection put twice on a queue, the class-level
    queue against the per-instance one) is visible.

    The behaviour of the two libraries the module calls is written out
    from their documentation: [queue.Queue] ([get_nowait], [put_nowait])
    and [sqlite3] (which attributes connections and cursors have, the
    exception hierarchy, the steps of [execute] in their order: prepare,
    open the implicit transaction, bind, run; [commit], [close]), and
    for the statements the SQL semantics of SQLite ([INSERT OR IGNORE],
    [UNIQUE], [NOT NULL], [AUTOINCREMENT], [hex] / [unhex], foreign keys).
    Sessions run one after the other: file locking between concurrent
    writers and garbage collection are not part of the model. *)

From Stdlib Require Import ZArith Ascii String Lia.
From Stdlib Require Strings.Byte.
From stdpp Require Import gmap strings list.
From Stdlib Require Import Sorted.

Set Warnings "-register-all".
Local Open Scope Z_scope.

(** ** Exceptions *)

(** The exception classes that occur: the built-in ones, those of
    [queue], and the [sqlite3] hierarchy
    ([Error] > [InterfaceError], [DatabaseError];
     [DatabaseError] > [DataError], [OperationalError], [IntegrityError],
     [InternalError], [ProgrammingError], [NotSupportedError]). *)
Inductive exc_class :=
| AttributeError | KeyError | OverflowError | ValueError
| Empty | Full
| Error | InterfaceError | DatabaseError
| DataError | OperationalError | IntegrityError
| InternalError | ProgrammingError | NotSupportedError.

#[global] Instance exc_class_eq_dec : EqDecision exc_class.
Proof. solve_decision. Defined.

(** [extype is DatabaseError]: identity of class objects. *)
Definition is_ (a b : exc_class) : bool := bool_decide (a = b).

(** [issubclass(c, DatabaseError)]: what a database-layer error is. *)
Definition issubclass_DatabaseError (c : exc_class) : bool :=
  match c with
  | DatabaseError | DataError | OperationalError | IntegrityError
  | InternalError | ProgrammingError | NotSupportedError => true
  | _ => false
  end.

(** An exception instance: its class, its message and [__context__], the
    exception that was being handled when this one was raised. *)
Inductive exn :=
| Exn (cls : exc_class) (msg : string) (context : option exn).

Definition exn_class (e : exn) : exc_class :=
  match e with Exn c _ _ => c end.
Definition exn_context (e : exn) : option exn :=
  match e with Exn _ _ ctx => ctx end.
Definition new_exn (c : exc_class) (msg : string) : exn := Exn c msg None.
(** Raising [e] while [handled] is being handled sets [e.__context__]. *)
Definition with_context (e handled : exn) : exn :=
  match e with Exn c m _ => Exn c m (Some handled) end.

Inductive result (A : Type) :=
| Ok (a : A)
| Raise (e : exn).
Arguments Ok {A} a.
Arguments Raise {A} e.

(** ** A state monad with exceptions

    A Python call changes the store and either returns or raises; what
    it changed before raising stays changed. *)
Section Monad.
Context {S : Type}.

Definition M (A : Type) : Type := S -> S * result A.

Definition ret {A} (a : A) : M A := fun s => (s, Ok a).
Definition raise {A} (e : exn) : M A := fun s => (s, Raise e).
Definition bind {A B} (m : M A) (k : A -> M B) : M B :=
  fun s => match m s with
           | (s', Ok a) => k a s'
           | (s', Raise e) => (s', Raise e)
           end.
Definition get_state : M S := fun s => (s, Ok s).
Definition modify (f : S -> S) : M unit := fun s => (f s, Ok tt).
(** [try: m except cls: h]: only an exception of class [cls] is caught
    (the classes caught here, [queue.Empty] and [queue.Full], have no
    subclasses); what the handler raises has the caught exception as
    its context. *)
Definition try_except {A} (m : M A) (cls : exc_class) (h : M A) : M A :=
  fun s => match m s with
           | (s', Ok a) => (s', Ok a)
           | (s', Raise e) =>
               if is_ (exn_class e) cls
               then match h s' with
                    | (s'', Ok a) => (s'', Ok a)
                    | (s'', Raise e') => (s'', Raise (with_context e' e))
                    end
               else (s', Raise e)
           end.
End Monad.
Arguments M : clear implicits.

Notation "'do' x <- m ; k" := (bind m (fun x => k))
  (at level 10, x name, m at level 100, k at level 200).
Notation "'do_' m ; k" := (bind m (fun _ => k))
  (at level 10, m at level 100, k at level 200).

(** ** [queue.Queue] *)
Module Queue.
(** A FIFO queue of object references; [maxsize <= 0] means unbounded. *)
Record t := { maxsize : Z; queue : list nat }.

Definition Queue (maxsize : Z) : t := {| maxsize := maxsize; queue := [] |}.
Definition qsize (q : t) : Z := Z.of_nat (length (queue q)).

(** [get_nowait()]: the oldest item, or [None] for [raise Empty]. *)
Definition get_nowait (q : t) : option (nat * t) :=
  match queue q with
  | [] => None
  | x :: rest => Some (x, {| maxsize := maxsize q; queue := rest |})
  end.

(** [put_nowait(item)]: [None] for [raise Full]. *)
Definition put_nowait (q : t) (item : nat) : option t :=
  if (0 <? maxsize q) && (maxsize q <=? qsize q) then None
  else Some {| maxsize := maxsize q; queue := queue q ++ [item] |}.
End Queue.

(** ** The database: SQLite's view of the two tables

    The layout follows [CREATE_SONGS_TABLE] and
    [CREATE_FINGERPRINTS_TABLE].  The column and table names are the
    constants of [dejavu.config.settings]; only their identity matters
    here, so a column is named by its constant. *)
Module Sql.

Abbreviation blob := (list Byte.byte).

(** *** [hex] and [unhex]

    The statements call [UNHEX(?)] and [HEX(column)]; function names
    are not case sensitive in SQL.  SQLite's [unhex(X)] (there since
    SQLite 3.41) decodes a string of hexadecimal digit pairs, upper or
    lower case, and is NULL when [X] has any other character or an odd
    length; [hex(X)] renders a blob in upper-case hexadecimal. *)
Definition hex_digit_value (c : ascii) : option N :=
  let n := N_of_ascii c in
  if ((48 <=? n) && (n <=? 57))%N then Some (n - 48)%N
  else if ((65 <=? n) && (n <=? 70))%N then Some (n - 55)%N
  else if ((97 <=? n) && (n <=? 102))%N then Some (n - 87)%N
  else None.

Definition byte_of_digits (hi lo : N) : Byte.byte :=
  default Byte.x00 (Byte.of_N (hi * 16 + lo)).

Fixpoint UNHEX (s : string) : option blob :=
  match s with
  | EmptyString => Some []
  | String a (String b rest) =>
      match hex_digit_value a, hex_digit_value b, UNHEX rest with
      | Some hi, Some lo, Some tl => Some (byte_of_digits hi lo :: tl)
      | _, _, _ => None
      end
  | String _ EmptyString => None
  end.

Definition hex_digit (d : N) : ascii :=
  ascii_of_N (if (d <? 10)%N then 48 + d else 55 + d)%N.

Fixpoint HEX (b : blob) : string :=
  match b with
  | [] => EmptyString
  | x :: rest =>
      let n := Byte.to_N x in
      String (hex_digit (n / 16)) (String (hex_digit (n mod 16)) (HEX rest))
  end.

(** *** Rows *)
Module Song.
Record t := {
  song_id : Z;            (* INTEGER PRIMARY KEY AUTOINCREMENT *)
  song_name : string;     (* VARCHAR(250) NOT NULL *)
  fingerprinted : Z;      (* TINYINT DEFAULT 0 *)
  file_sha1 : blob;       (* BINARY(20) NOT NULL *)
  total_hashes : Z;       (* INT NOT NULL DEFAULT 0 *)
  date_created : Z;       (* DATETIME NOT NULL DEFAULT CURRENT_TIMESTAMP *)
  date_modified : Z       (* DATETIME NOT NULL DEFAULT CURRENT_TIMESTAMP *)
}.
End Song.

Module Fingerprint.
Record t := {
  rowid : Z;              (* the implicit rowid *)
  hash : blob;            (* BINARY(10) NOT NULL *)
  song_id : Z;            (* INTEGER NOT NULL, references songs *)
  offset : Z;             (* INTEGER NOT NULL *)
  date_created : Z;
  date_modified : Z
}.
End Fingerprint.

#[global] Instance byte_eq_dec : EqDecision Byte.byte := Byte.byte_eq_dec.
#[global] Instance song_eq_dec : EqDecision Song.t.
Proof. solve_decision. Defined.
#[global] Instance fingerprint_eq_dec : EqDecision Fingerprint.t.
Proof. solve_decision. Defined.

(** A table that has not been created is [None].  [songs_seq] is the
    table's entry in [sqlite_sequence] (the largest id AUTOINCREMENT
    has given out, 0 before the first), [songs_trigger] whether the
    [AFTER UPDATE] trigger on the songs table exists. *)
Record Database := {
  songs : option (list Song.t);
  songs_seq : Z;
  songs_trigger : bool;
  fingerprints : option (list Fingerprint.t)
}.

#[global] Instance database_eq_dec : EqDecision Database.
Proof. solve_decision. Defined.

(** A database file that was just created. *)
Definition empty_database : Database :=
  {| songs := None; songs_seq := 0; songs_trigger := false;
     fingerprints := None |}.

Definition max_int64 : Z := 9223372036854775807.
Definition min_int64 : Z := -9223372036854775808.

Definition max_rowid (ids : list Z) : Z := foldr Z.max 0 ids.

(** *** The statement catalog

    A statement of [SQLiteDatabase] together with the values bound to
    its [?] placeholders, typed as the callers pass them (names and
    hashes are [str], the hashes hexadecimal; ids, offsets and counts
    are [int]). *)
Inductive statement :=
| CREATE_SONGS_TABLE
| CREATE_TRIGGER_UPDATE_TIMESTAMP_ON_SONGS
| CREATE_FINGERPRINTS_TABLE
| INSERT_FINGERPRINT (song_id : Z) (hash : string) (offset : Z)
| INSERT_SONG (song_name : string) (file_sha1 : string) (total_hashes : Z)
| SELECT (hash : string)
| SELECT_SONG (song_id : Z)
| SELECT_NUM_FINGERPRINTS
| UPDATE_SONG_FINGERPRINTED (song_id : Z)
| DELETE_UNFINGERPRINTED.

(** The columns of a result set ([cursor.description]). *)
Inductive column :=
| FIELD_SONG_ID | FIELD_SONGNAME | FIELD_FINGERPRINTED | FIELD_FILE_SHA1
| FIELD_TOTAL_HASHES | FIELD_HASH | FIELD_OFFSET | col_n.

#[global] Instance column_eq_dec : EqDecision column.
Proof. solve_decision. Defined.
#[global] Instance column_countable : Countable column.
Proof.
  refine (inj_countable'
    (fun c => match c with
              | FIELD_SONG_ID => 0 | FIELD_SONGNAME => 1
              | FIELD_FINGERPRINTED => 2 | FIELD_FILE_SHA1 => 3
              | FIELD_TOTAL_HASHES => 4 | FIELD_HASH => 5
              | FIELD_OFFSET => 6 | col_n => 7
              end%nat)
    (fun i => match i with
              | 0 => FIELD_SONG_ID | 1 => FIELD_SONGNAME
              | 2 => FIELD_FINGERPRINTED | 3 => FIELD_FILE_SHA1
              | 4 => FIELD_TOTAL_HASHES | 5 => FIELD_HASH
              | 6 => FIELD_OFFSET | _ => col_n
              end%nat) _).
  intros []; reflexivity.
Defined.

Inductive value :=
| NULL
| INTEGER (z : Z)
| TEXT (s : string)
| BLOB (b : blob).

(** What running a statement gives: the database after it, the result
    set, and the rowid of the row it inserted, if it inserted one. *)
Record outcome := {
  out_db : Database;
  description : list column;
  rows : list (list value);
  inserted : option Z
}.

Definition done (db : Database) : result outcome :=
  Ok {| out_db := db; description := []; rows := []; inserted := None |}.
Definition selected (db : Database) (cols : list column)
    (rs : list (list value)) : result outcome :=
  Ok {| out_db := db; description := cols; rows := rs; inserted := None |}.
Definition no_such_table : result outcome :=
  Raise (new_exn OperationalError "no such table").

(** [INSERT INTO songs (song_name, file_sha1, total_hashes)
     VALUES (?, UNHEX(?), ?)]: the id is one more than the largest the
    table ever had, and the statement fails when that was the largest
    there is; the new id is allocated before the constraints are
    checked.  A hash that is not hexadecimal is NULL and fails the NOT
    NULL constraint, which aborts the statement. *)
Definition exec_INSERT_SONG (now : Z) (db : Database)
    (name file_hash : string) (total : Z) : result outcome :=
  match songs db with
  | None => no_such_table
  | Some ss =>
      let last := Z.max (songs_seq db) (max_rowid (Song.song_id <$> ss)) in
      if max_int64 <=? last
      then Raise (new_exn OperationalError "database or disk is full")
      else
        match UNHEX file_hash with
        | None => Raise (new_exn IntegrityError
                           "NOT NULL constraint failed: songs.file_sha1")
        | Some b =>
            let id := last + 1 in
            let row := {| Song.song_id := id; Song.song_name := name;
                          Song.fingerprinted := 0; Song.file_sha1 := b;
                          Song.total_hashes := total;
                          Song.date_created := now;
                          Song.date_modified := now |} in
            Ok {| out_db := {| songs := Some (ss ++ [row]);
                               songs_seq := id;
                               songs_trigger := songs_trigger db;
                               fingerprints := fingerprints db |};
                  description := []; rows := []; inserted := Some id |}
        end
  end.

(** The UNIQUE(song_id, offset, hash) constraint: is the triple there? *)
Definition same_triple (sid : Z) (b : blob) (off : Z)
    (f : Fingerprint.t) : bool :=
  bool_decide (Fingerprint.song_id f = sid) &&
  bool_decide (Fingerprint.offset f = off) &&
  bool_decide (Fingerprint.hash f = b).

(** [INSERT OR IGNORE INTO fingerprints (song_id, hash, offset)
     VALUES (?, UNHEX(?), ?)]: a row that breaks NOT NULL or UNIQUE is
    skipped without an error.  OR IGNORE does not cover the foreign
    key, which is checked only on a connection that enforces foreign
    keys. *)
Definition exec_INSERT_FINGERPRINT (foreign_keys : bool) (now : Z)
    (db : Database) (sid : Z) (h : string) (off : Z) : result outcome :=
  match fingerprints db with
  | None => no_such_table
  | Some fs =>
      if foreign_keys && bool_decide (songs db = None) then no_such_table
      else
        match UNHEX h with
        | None => done db
        | Some b =>
            if existsb (same_triple sid b off) fs then done db
            else if foreign_keys &&
                    negb (existsb (fun s => bool_decide (Song.song_id s = sid))
                            (default [] (songs db)))
            then Raise (new_exn IntegrityError "FOREIGN KEY constraint failed")
            else
              let id := max_rowid (Fingerprint.rowid <$> fs) + 1 in
              let row := {| Fingerprint.rowid := id; Fingerprint.hash := b;
                            Fingerprint.song_id := sid;
                            Fingerprint.offset := off;
                            Fingerprint.date_created := now;
                            Fingerprint.date_modified := now |} in
              Ok {| out_db := {| songs := songs db;
                                 songs_seq := songs_seq db;
                                 songs_trigger := songs_trigger db;
                                 fingerprints := Some (fs ++ [row]) |};
                    description := []; rows := []; inserted := Some id |}
        end
  end.

(** [SELECT song_id, offset FROM fingerprints WHERE hash = UNHEX(?)];
    a comparison with NULL selects nothing. *)
Definition exec_SELECT (db : Database) (h : string) : result outcome :=
  match fingerprints db with
  | None => no_such_table
  | Some fs =>
      let matching :=
        match UNHEX h with
        | None => []
        | Some b => filter (fun f => Fingerprint.hash f = b) fs
        end in
      selected db [FIELD_SONG_ID; FIELD_OFFSET]
        ((fun f => [INTEGER (Fingerprint.song_id f);
                    INTEGER (Fingerprint.offset f)]) <$> matching)
  end.

(** [SELECT song_name, HEX(file_sha1) AS file_sha1, total_hashes
     FROM songs WHERE song_id = ?]. *)
Definition exec_SELECT_SONG (db : Database) (id : Z) : result outcome :=
  match songs db with
  | None => no_such_table
  | Some ss =>
      selected db [FIELD_SONGNAME; FIELD_FILE_SHA1; FIELD_TOTAL_HASHES]
        ((fun s => [TEXT (Song.song_name s); TEXT (HEX (Song.file_sha1 s));
                    INTEGER (Song.total_hashes s)])
           <$> filter (fun s => Song.song_id s = id) ss)
  end.

(** [SELECT COUNT( * ) AS n FROM fingerprints]. *)
Definition exec_SELECT_NUM_FINGERPRINTS (db : Database) : result outcome :=
  match fingerprints db with
  | None => no_such_table
  | Some fs => selected db [col_n] [[INTEGER (Z.of_nat (length fs))]]
  end.

(** [UPDATE songs SET fingerprinted = 1 WHERE song_id = ?]; the
    trigger, when it exists, then refreshes [date_modified] of each
    updated row. *)
Definition exec_UPDATE_SONG_FINGERPRINTED (now : Z) (db : Database)
    (id : Z) : result outcome :=
  match songs db with
  | None => no_such_table
  | Some ss =>
      let upd (s : Song.t) :=
        if bool_decide (Song.song_id s = id)
        then {| Song.song_id := Song.song_id s;
                Song.song_name := Song.song_name s;
                Song.fingerprinted := 1;
                Song.file_sha1 := Song.file_sha1 s;
                Song.total_hashes := Song.total_hashes s;
                Song.date_created := Song.date_created s;
                Song.date_modified :=
                  if songs_trigger db then now else Song.date_modified s |}
        else s in
      done {| songs := Some (upd <$> ss); songs_seq := songs_seq db;
              songs_trigger := songs_trigger db;
              fingerprints := fingerprints db |}
  end.

(** [DELETE FROM songs WHERE fingerprinted = 0].  The fingerprints of
    a deleted song go with it ([ON DELETE CASCADE]) only on a
    connection that enforces foreign keys. *)
Definition exec_DELETE_UNFINGERPRINTED (foreign_keys : bool)
    (db : Database) : result outcome :=
  match songs db with
  | None => no_such_table
  | Some ss =>
      let deleted :=
        Song.song_id <$> filter (fun s => Song.fingerprinted s = 0) ss in
      let kept := filter (fun s => Song.fingerprinted s <> 0) ss in
      let cascade (fs : list Fingerprint.t) :=
        if foreign_keys
        then filter (fun f => Fingerprint.song_id f ∉ deleted) fs
        else fs in
      done {| songs := Some kept; songs_seq := songs_seq db;
              songs_trigger := songs_trigger db;
              fingerprints := cascade <$> fingerprints db |}
  end.

Definition exec (foreign_keys : bool) (now : Z) (db : Database)
    (s : statement) : result outcome :=
  match s with
  | CREATE_SONGS_TABLE =>
      (* CREATE TABLE IF NOT EXISTS *)
      done {| songs := Some (default [] (songs db));
              songs_seq := songs_seq db;
              songs_trigger := songs_trigger db;
              fingerprints := fingerprints db |}
  | CREATE_TRIGGER_UPDATE_TIMESTAMP_ON_SONGS =>
      (* CREATE TRIGGER IF NOT EXISTS ... AFTER UPDATE ON songs *)
      match songs db with
      | None => no_such_table
      | Some _ => done {| songs := songs db; songs_seq := songs_seq db;
                          songs_trigger := true;
                          fingerprints := fingerprints db |}
      end
  | CREATE_FINGERPRINTS_TABLE =>
      done {| songs := songs db; songs_seq := songs_seq db;
              songs_trigger := songs_trigger db;
              fingerprints := Some (default [] (fingerprints db)) |}
  | INSERT_FINGERPRINT sid h off =>
      exec_INSERT_FINGERPRINT foreign_keys now db sid h off
  | INSERT_SONG name h total => exec_INSERT_SONG now db name h total
  | SELECT h => exec_SELECT db h
  | SELECT_SONG id => exec_SELECT_SONG db id
  | SELECT_NUM_FINGERPRINTS => exec_SELECT_NUM_FINGERPRINTS db
  | UPDATE_SONG_FINGERPRINTED id => exec_UPDATE_SONG_FINGERPRINTED now db id
  | DELETE_UNFINGERPRINTED => exec_DELETE_UNFINGERPRINTED foreign_keys db
  end.

(** INSERT, UPDATE and DELETE: the statements before which [sqlite3]
    opens a transaction. *)
Definition is_dml (s : statement) : bool :=
  match s with
  | INSERT_FINGERPRINT _ _ _ | INSERT_SONG _ _ _
  | UPDATE_SONG_FINGERPRINTED _ | DELETE_UNFINGERPRINTED => true
  | _ => false
  end.

(** Preparing a statement: a table it names must exist, and on a
    connection that enforces foreign keys the parent table of the one
    it writes to as well.  The error, if there is one. *)
Definition prepare (foreign_keys : bool) (db : Database) (s : statement)
    : option exn :=
  let needs (present : bool) : option exn :=
    if present then None
    else Some (new_exn OperationalError "no such table") in
  match s with
  | CREATE_SONGS_TABLE | CREATE_FINGERPRINTS_TABLE => None
  | CREATE_TRIGGER_UPDATE_TIMESTAMP_ON_SONGS | INSERT_SONG _ _ _
  | SELECT_SONG _ | UPDATE_SONG_FINGERPRINTED _ | DELETE_UNFINGERPRINTED =>
      needs (bool_decide (songs db <> None))
  | INSERT_FINGERPRINT _ _ _ =>
      needs (bool_decide (fingerprints db <> None) &&
             negb (foreign_keys && bool_decide (songs db = None)))
  | SELECT _ | SELECT_NUM_FINGERPRINTS =>
      needs (bool_decide (fingerprints db <> None))
  end.

(** An [int] outside 64 bits cannot be bound to a placeholder. *)
Definition int64 (z : Z) : bool := (min_int64 <=? z) && (z <=? max_int64).
Definition bindable (s : statement) : bool :=
  match s with
  | INSERT_FINGERPRINT sid _ off => int64 sid && int64 off
  | INSERT_SONG _ _ total => int64 total
  | SELECT_SONG id | UPDATE_SONG_FINGERPRINTED id => int64 id
  | _ => true
  end.
End Sql.

(** ** The store *)

(** A [sqlite3.Connection].  [in_transaction] holds the database as the
    open transaction sees it; [foreign_keys] is the connection's
    [PRAGMA foreign_keys]; [row_factory] tells whether [dict_factory] has
    been installed. *)
Record Connection := {
  database : string;
  conn_closed : bool;
  in_transaction : option Sql.Database;
  foreign_keys : bool;
  row_factory : bool;
  last_insert_rowid : Z
}.

(** A [sqlite3.Cursor]. *)
Record SqliteCursor := {
  connection : nat;
  cur_closed : bool;
  cur_row_factory : bool;
  cur_description : list Sql.column;
  cur_rows : list (list Sql.value);
  cur_lastrowid : option Z
}.

(** An instance of the module's [Cursor] class; [cursor] is unset until
    [__enter__] has run. *)
Module CursorObj.
Record t := {
  _cache : nat;
  conn : nat;
  dictionary : bool;
  cursor : option nat
}.
End CursorObj.

(** The process: the objects by reference, the class attribute
    [Cursor._cache] (absent until [clear_cache] sets it), the database
    files and the clock behind CURRENT_TIMESTAMP. *)
Record World := {
  queues : list Queue.t;
  connections : list Connection;
  cursors : list SqliteCursor;
  instances : list CursorObj.t;
  Cursor_cache : option nat;
  files : gmap string Sql.Database;
  clock : Z
}.

Definition set_queues (f : list Queue.t -> list Queue.t) (w : World) : World :=
  {| queues := f (queues w); connections := connections w;
     cursors := cursors w; instances := instances w;
     Cursor_cache := Cursor_cache w; files := files w; clock := clock w |}.
Definition set_connections (f : list Connection -> list Connection)
    (w : World) : World :=
  {| queues := queues w; connections := f (connections w);
     cursors := cursors w; instances := instances w;
     Cursor_cache := Cursor_cache w; files := files w; clock := clock w |}.
Definition set_cursors (f : list SqliteCursor -> list SqliteCursor)
    (w : World) : World :=
  {| queues := queues w; connections := connections w;
     cursors := f (cursors w); instances := instances w;
     Cursor_cache := Cursor_cache w; files := files w; clock := clock w |}.
Definition set_instances (f : list CursorObj.t -> list CursorObj.t)
    (w : World) : World :=
  {| queues := queues w; connections := connections w;
     cursors := cursors w; instances := f (instances w);
     Cursor_cache := Cursor_cache w; files := files w; clock := clock w |}.
Definition set_Cursor_cache (c : option nat) (w : World) : World :=
  {| queues := queues w; connections := connections w;
     cursors := cursors w; instances := instances w;
     Cursor_cache := c; files := files w; clock := clock w |}.
Definition set_files (f : gmap string Sql.Database -> gmap string Sql.Database)
    (w : World) : World :=
  {| queues := queues w; connections := connections w;
     cursors := cursors w; instances := instances w;
     Cursor_cache := Cursor_cache w; files := f (files w); clock := clock w |}.
Definition set_clock (t : Z) (w : World) : World :=
  {| queues := queues w; connections := connections w;
     cursors := cursors w; instances := instances w;
     Cursor_cache := Cursor_cache w; files := files w; clock := t |}.

(** A reference that names no object of the store: no Python program
    holds one, the operations answer it with an error. *)
Definition dangling {A} : M World A :=
  raise (new_exn ValueError "no such object").

Definition deref {A} (l : World -> list A) (i : nat) : M World A :=
  fun w => match l w !! i with
           | Some x => (w, Ok x)
           | None => dangling w
           end.

(** The committed content of a database file. *)
Definition file_content (w : World) (path : string) : Sql.Database :=
  default Sql.empty_database (files w !! path).

(** ** [queue.Queue] objects in the store *)

(** [queue.Queue(maxsize=...)]: a new queue object. *)
Definition new_Queue (maxsize : Z) : M World nat :=
  fun w => (set_queues (fun l => l ++ [Queue.Queue maxsize]) w,
            Ok (length (queues w))).

Definition get_nowait (q : nat) : M World nat :=
  do Q <- deref queues q;
  match Queue.get_nowait Q with
  | None => raise (new_exn Empty EmptyString)
  | Some (item, Q') =>
      do_ modify (set_queues (fun l => <[q := Q']> l));
      ret item
  end.

Definition put_nowait (q item : nat) : M World unit :=
  do Q <- deref queues q;
  match Queue.put_nowait Q item with
  | None => raise (new_exn Full EmptyString)
  | Some Q' => modify (set_queues (fun l => <[q := Q']> l))
  end.

(** A fetched row: a tuple, or what the row factory makes of it. *)
Inductive row :=
| Tuple (vs : list Sql.value)
| Dict (d : gmap Sql.column Sql.value).

(** [dict_factory(cursor, row)]: the row as a dict keyed by column name;
    of two columns with one name the later one stays. *)
Definition dict_factory (cursor : SqliteCursor) (r : list Sql.value)
    : gmap Sql.column Sql.value :=
  foldl (fun d cv => <[cv.1 := cv.2]> d) ∅ (zip (cur_description cursor) r).

(** ** The [sqlite3] module *)
Module sqlite3.

Definition closed_database {A} : M World A :=
  raise (new_exn ProgrammingError "Cannot operate on a closed database.").
Definition closed_cursor {A} : M World A :=
  raise (new_exn ProgrammingError "Cannot operate on a closed cursor.").

Definition update_connection (c : nat) (k : Connection) : M World unit :=
  modify (set_connections (fun l => <[c := k]> l)).
Definition update_cursor (cur : nat) (k : SqliteCursor) : M World unit :=
  modify (set_cursors (fun l => <[cur := k]> l)).

Definition with_transaction (t : option Sql.Database) (k : Connection)
    : Connection :=
  {| database := database k; conn_closed := conn_closed k;
     in_transaction := t; foreign_keys := foreign_keys k;
     row_factory := row_factory k;
     last_insert_rowid := last_insert_rowid k |}.

(** [sqlite3.connect(path)]: a new connection.  Foreign keys are not
    enforced on a connection unless it asks for it with
    [PRAGMA foreign_keys = ON]; a file that does not exist yet reads
    as the empty database. *)
Definition connect (path : string) : M World nat :=
  fun w =>
    let k := {| database := path; conn_closed := false;
                in_transaction := None; foreign_keys := false;
                row_factory := false; last_insert_rowid := 0 |} in
    (set_connections (fun l => l ++ [k]) w, Ok (length (connections w))).

(** [conn.ping(True)]: a [sqlite3.Connection] has no such attribute. *)
Definition Connection_ping (c : nat) (reconnect : bool) : M World unit :=
  raise (new_exn AttributeError
           "'sqlite3.Connection' object has no attribute 'ping'").

(** [conn.row_factory = dict_factory]. *)
Definition set_row_factory (c : nat) : M World unit :=
  do k <- deref connections c;
  update_connection c
    {| database := database k; conn_closed := conn_closed k;
       in_transaction := in_transaction k; foreign_keys := foreign_keys k;
       row_factory := true; last_insert_rowid := last_insert_rowid k |}.

(** [conn.cursor()]. *)
Definition Connection_cursor (c : nat) : M World nat :=
  do k <- deref connections c;
  if conn_closed k then closed_database
  else fun w =>
    let cur := {| connection := c; cur_closed := false;
                  cur_row_factory := row_factory k;
                  cur_description := []; cur_rows := [];
                  cur_lastrowid := None |} in
    (set_cursors (fun l => l ++ [cur]) w, Ok (length (cursors w))).

(** [conn.commit()]: the transaction's view becomes the file. *)
Definition commit (c : nat) : M World unit :=
  do k <- deref connections c;
  if conn_closed k then closed_database
  else match in_transaction k with
       | None => ret tt
       | Some db =>
           do_ modify (set_files (fun fs => <[database k := db]> fs));
           update_connection c (with_transaction None k)
       end.

(** [conn.rollback()]: the transaction's view is dropped. *)
Definition rollback (c : nat) : M World unit :=
  do k <- deref connections c;
  if conn_closed k then closed_database
  else update_connection c (with_transaction None k).

(** [conn.close()]: an open transaction is lost. *)
Definition close (c : nat) : M World unit :=
  do k <- deref connections c;
  update_connection c
    {| database := database k; conn_closed := true;
       in_transaction := None; foreign_keys := foreign_keys k;
       row_factory := row_factory k;
       last_insert_rowid := last_insert_rowid k |}.

(** [cursor.rollback()]: a [sqlite3.Cursor] has no such attribute. *)
Definition Cursor_rollback (cur : nat) : M World unit :=
  raise (new_exn AttributeError
           "'sqlite3.Cursor' object has no attribute 'rollback'").

(** [cursor.close()]. *)
Definition Cursor_close (cur : nat) : M World unit :=
  do u <- deref cursors cur;
  do k <- deref connections (connection u);
  if conn_closed k then closed_database
  else update_cursor cur
         {| connection := connection u; cur_closed := true;
            cur_row_factory := cur_row_factory u;
            cur_description := cur_description u; cur_rows := cur_rows u;
            cur_lastrowid := cur_lastrowid u |}.

Definition is_insert (s : Sql.statement) : bool :=
  match s with
  | Sql.INSERT_FINGERPRINT _ _ _ | Sql.INSERT_SONG _ _ _ => true
  | _ => false
  end.

(** [cursor.execute(statement, parameters)].  The statement is prepared
    first, on the database as the connection sees it: one that names a
    missing table fails there, before anything else happens.  Then,
    before an INSERT, UPDATE or DELETE, a transaction is opened if none
    is open; the parameters are bound; the statement runs on the
    transaction's view, or on the file itself when no transaction is
    open.  A statement that fails changes nothing.  [lastrowid] follows
    the connection's last inserted rowid after an INSERT. *)
Definition execute (cur : nat) (s : Sql.statement) : M World unit :=
  do u <- deref cursors cur;
  do k <- deref connections (connection u);
  if cur_closed u then closed_cursor
  else if conn_closed k then closed_database
  else fun w =>
    let seen := default (file_content w (database k)) (in_transaction k) in
    match Sql.prepare (foreign_keys k) seen s with
    | Some e => (w, Raise e)
    | None =>
    let begun :=
      if Sql.is_dml s && bool_decide (in_transaction k = None)
      then with_transaction (Some (file_content w (database k))) k
      else k in
    let w1 := set_connections (fun l => <[connection u := begun]> l) w in
    if negb (Sql.bindable s)
    then (w1, Raise (new_exn OverflowError
                       "Python int too large to convert to SQLite INTEGER"))
    else
      let db := default (file_content w (database k)) (in_transaction begun) in
      match Sql.exec (foreign_keys k) (clock w) db s with
      | Raise e => (w1, Raise e)
      | Ok o =>
          let rowid := default (last_insert_rowid k) (Sql.inserted o) in
          let k' :=
            {| database := database k; conn_closed := false;
               in_transaction :=
                 match in_transaction begun with
                 | Some _ => Some (Sql.out_db o)
                 | None => None
                 end;
               foreign_keys := foreign_keys k;
               row_factory := row_factory k;
               last_insert_rowid := rowid |} in
          let u' :=
            {| connection := connection u; cur_closed := false;
               cur_row_factory := cur_row_factory u;
               cur_description := Sql.description o;
               cur_rows := Sql.rows o;
               cur_lastrowid :=
                 if is_insert s then Some rowid else cur_lastrowid u |} in
          let w2 :=
            match in_transaction begun with
            | Some _ => w
            | None => set_files (fun fs => <[database k := Sql.out_db o]> fs) w
            end in
          (set_cursors (fun l => <[cur := u']> l)
             (set_connections (fun l => <[connection u := k']> l) w2),
           Ok tt)
      end
    end.

Definition make_row (u : SqliteCursor) (r : list Sql.value) : row :=
  if cur_row_factory u then Dict (dict_factory u r) else Tuple r.

(** [cursor.fetchone()]: the next row of the result set, or [None]. *)
Definition fetchone (cur : nat) : M World (option row) :=
  do u <- deref cursors cur;
  do k <- deref connections (connection u);
  if cur_closed u then closed_cursor
  else if conn_closed k then closed_database
  else match cur_rows u with
       | [] => ret None
       | r :: rest =>
           do_ update_cursor cur
                 {| connection := connection u; cur_closed := false;
                    cur_row_factory := cur_row_factory u;
                    cur_description := cur_description u;
                    cur_rows := rest;
                    cur_lastrowid := cur_lastrowid u |};
           ret (Some (make_row u r))
       end.

(** [cursor.fetchall()]: the rows that are left. *)
Definition fetchall (cur : nat) : M World (list row) :=
  do u <- deref cursors cur;
  do k <- deref connections (connection u);
  if cur_closed u then closed_cursor
  else if conn_closed k then closed_database
  else
    do_ update_cursor cur
          {| connection := connection u; cur_closed := false;
             cur_row_factory := cur_row_factory u;
             cur_description := cur_description u;
             cur_rows := [];
             cur_lastrowid := cur_lastrowid u |};
    ret (make_row u <$> cur_rows u).

(** [cursor.lastrowid]. *)
Definition lastrowid (cur : nat) : M World (option Z) :=
  do u <- deref cursors cur; ret (cur_lastrowid u).
End sqlite3.

(** ** The [Cursor] class *)
Module Cursor.
Import CursorObj.

Definition update_instance (self : nat) (o : CursorObj.t) : M World unit :=
  modify (set_instances (fun l => <[self := o]> l)).

(** [options["file"]]. *)
Definition getitem_file (options : gmap string string) : M World string :=
  match options !! "file"%string with
  | Some path => ret path
  | None => raise (new_exn KeyError "'file'")
  end.

(** The [try] block of [__init__]: take a connection from the cache and
    ping it; when the cache is empty, connect. *)
Definition acquire (cache : nat) (options : gmap string string)
    : M World nat :=
  try_except
    (do conn <- get_nowait cache;
     (* Ping the connection before using it from the cache. *)
     do_ sqlite3.Connection_ping conn true;
     ret conn)
    Empty
    (do path <- getitem_file options;
     sqlite3.connect path).

(** [Cursor(dictionary=False, **options)]. *)
Definition __init__ (dictionary : bool) (options : gmap string string)
    : M World nat :=
  do cache <- new_Queue 5;
  do conn <- acquire cache options;
  fun w =>
    (set_instances
       (fun l => l ++ [{| _cache := cache; conn := conn;
                          dictionary := dictionary; cursor := None |}]) w,
     Ok (length (instances w))).

(** [Cursor.clear_cache()]: the class attribute gets a new queue. *)
Definition clear_cache : M World unit :=
  do q <- new_Queue 5;
  modify (set_Cursor_cache (Some q)).

Definition __enter__ (self : nat) : M World nat :=
  do o <- deref instances self;
  do_ (if dictionary o then sqlite3.set_row_factory (conn o) else ret tt);
  do cur <- sqlite3.Connection_cursor (conn o);
  do_ update_instance self
        {| _cache := _cache o; conn := conn o;
           dictionary := dictionary o; cursor := Some cur |};
  ret cur.

(** [self.cursor], which [__enter__] sets. *)
Definition getattr_cursor (self : nat) : M World nat :=
  do o <- deref instances self;
  match cursor o with
  | Some cur => ret cur
  | None => raise (new_exn AttributeError
                     "'Cursor' object has no attribute 'cursor'")
  end.

(** The last [try] block of [__exit__]: put the connection back on the
    queue, close it when the queue is full. *)
Definition release (cache conn : nat) : M World unit :=
  try_except (put_nowait cache conn) Full (sqlite3.close conn).

(** [__exit__(extype, exvalue, traceback)]; [extype] is [None] when the
    body ended without an exception.  It returns [None]. *)
Definition __exit__ (self : nat) (extype : option exc_class) : M World unit :=
  do o <- deref instances self;
  (* if we had a SQLite related error we try to rollback the cursor. *)
  do_ (if from_option (fun c => is_ c DatabaseError) false extype
       then do cur <- getattr_cursor self; sqlite3.Cursor_rollback cur
       else ret tt);
  do cur <- getattr_cursor self;
  do_ sqlite3.Cursor_close cur;
  do_ sqlite3.commit (conn o);
  (* Put it back on the queue *)
  release (_cache o) (conn o).

(** [with self as cur: body].  [__exit__] returns [None], so an
    exception of the body propagates once [__exit__] has returned; an
    exception raised by [__exit__] itself takes its place and keeps
    the body's one as its context. *)
Definition with_ {A} (self : nat) (body : nat -> M World A) : M World A :=
  do cur <- __enter__ self;
  fun w =>
    match body cur w with
    | (w1, Ok a) =>
        match __exit__ self None w1 with
        | (w2, Ok _) => (w2, Ok a)
        | (w2, Raise e') => (w2, Raise e')
        end
    | (w1, Raise e) =>
        match __exit__ self (Some (exn_class e)) w1 with
        | (w2, Ok _) => (w2, Raise e)
        | (w2, Raise e') => (w2, Raise (with_context e' e))
        end
    end.
End Cursor.

(** [cursor_factory]: the cursor function it returns builds a [Cursor]
    from the options of the call updated with the factory options. *)
Definition cursor_factory (factory_options : gmap string string)
    (dictionary : bool) (options : gmap string string) : M World nat :=
  Cursor.__init__ dictionary (factory_options ∪ options).

(** ** [SQLiteDatabase] *)
Module SQLiteDatabase.
Record t := { _options : gmap string string }.

Definition __init__ (options : gmap string string) : t :=
  {| _options := options |}.

(** [self.cursor]. *)
Definition cursor (self : t) : bool -> gmap string string -> M World nat :=
  cursor_factory (_options self).

Definition after_fork (self : t) : M World unit :=
  (* Clear the cursor cache, we don't want any stale connections from
     the previous process. *)
  Cursor.clear_cache.

Definition insert_song (self : t) (song_name file_hash : string)
    (total_hashes : Z) : M World (option Z) :=
  do c <- cursor self false ∅;
  Cursor.with_ c (fun cur =>
    do_ sqlite3.execute cur (Sql.INSERT_SONG song_name file_hash total_hashes);
    sqlite3.lastrowid cur).
End SQLiteDatabase.

(** ** The facade operations of the base class

    [SQLiteDatabase] inherits its other operations from [CommonDatabase],
    which runs one catalog statement in one scoped session. *)
Module CommonDatabase.
Import SQLiteDatabase.

(** Modelled from the spec: [CommonDatabase] is not among the sources.
    "Each Facade call opens exactly one Scoped Session, executes one
    catalog statement with bound parameters, and returns typed
    results": [with self.cursor() as cur: body]. *)
Definition scoped {A} (self : SQLiteDatabase.t) (body : nat -> M World A)
    : M World A :=
  do c <- cursor self false ∅;
  Cursor.with_ c body.

(** Modelled from the spec: "create schema": the songs and fingerprints
    tables and the modified-timestamp trigger. *)
Definition setup (self : SQLiteDatabase.t) : M World unit :=
  scoped self (fun cur =>
    do_ sqlite3.execute cur Sql.CREATE_SONGS_TABLE;
    do_ sqlite3.execute cur Sql.CREATE_FINGERPRINTS_TABLE;
    sqlite3.execute cur Sql.CREATE_TRIGGER_UPDATE_TIMESTAMP_ON_SONGS).

(** Modelled from the spec: "fetch song: song id -> name, content hash
    (hex), total hash count; not-found yields no row, not an error". *)
Definition get_song_by_id (self : SQLiteDatabase.t) (song_id : Z)
    : M World (option row) :=
  scoped self (fun cur =>
    do_ sqlite3.execute cur (Sql.SELECT_SONG song_id);
    sqlite3.fetchone cur).

(** Modelled from the spec: "insert fingerprint: song id, hash (hex),
    offset". *)
Definition insert (self : SQLiteDatabase.t) (fingerprint : string)
    (song_id offset : Z) : M World unit :=
  scoped self (fun cur =>
    sqlite3.execute cur (Sql.INSERT_FINGERPRINT song_id fingerprint offset)).

(** Modelled from the spec: "lookup by single hash: hash (hex) ->
    sequence of (songId, offset)". *)
Definition query (self : SQLiteDatabase.t) (fingerprint : string)
    : M World (list row) :=
  scoped self (fun cur =>
    do_ sqlite3.execute cur (Sql.SELECT fingerprint);
    sqlite3.fetchall cur).

(** Modelled from the spec: "mark fingerprinted: song id; sets the
    boolean flag true". *)
Definition set_song_fingerprinted (self : SQLiteDatabase.t) (song_id : Z)
    : M World unit :=
  scoped self (fun cur =>
    sqlite3.execute cur (Sql.UPDATE_SONG_FINGERPRINTED song_id)).

(** Modelled from the spec: "delete unfingerprinted: reaps
    partially-ingested songs". *)
Definition delete_unfingerprinted_songs (self : SQLiteDatabase.t)
    : M World unit :=
  scoped self (fun cur => sqlite3.execute cur Sql.DELETE_UNFINGERPRINTED).
End CommonDatabase.

(** ** Histories

    What a process does with the module, one call after the other; a
    call that raises leaves the store as it was when it raised. *)
Inductive op :=
| Op_Cursor (dictionary : bool) (options : gmap string string)
| Op_enter (self : nat)
| Op_exit (self : nat) (extype : option exc_class)
| Op_clear_cache
| Op_execute (cur : nat) (s : Sql.statement)
| Op_fetchone (cur : nat)
| Op_fetchall (cur : nat)
| Op_sleep (seconds : Z).

Definition step (w : World) (o : op) : World :=
  match o with
  | Op_Cursor dictionary options => (Cursor.__init__ dictionary options w).1
  | Op_enter self => (Cursor.__enter__ self w).1
  | Op_exit self extype => (Cursor.__exit__ self extype w).1
  | Op_clear_cache => (Cursor.clear_cache w).1
  | Op_execute cur s => (sqlite3.execute cur s w).1
  | Op_fetchone cur => (sqlite3.fetchone cur w).1
  | Op_fetchall cur => (sqlite3.fetchall cur w).1
  | Op_sleep seconds => set_clock (clock w + Z.max 0 seconds) w
  end.

Definition run (w : World) (ops : list op) : World := foldl step w ops.

(** A process that has just started: no object yet, the class
    attribute [Cursor._cache] not set. *)
Definition boot (fs : gmap string Sql.Database) (now : Z) : World :=
  {| queues := []; connections := []; cursors := []; instances := [];
     Cursor_cache := None; files := fs; clock := now |}.

(** The two operations of a connection cache, as [Cursor] performs
    them, on one given cache. *)
Inductive cache_op :=
| Acquire (options : gmap string string)
| Release (conn : nat).

Definition cache_step (cache : nat) (w : World) (o : cache_op) : World :=
  match o with
  | Acquire options => (Cursor.acquire cache options w).1
  | Release conn => (Cursor.release cache conn w).1
  end.

Definition cache_run (cache : nat) (w : World) (ops : list cache_op) : World :=
  foldl (cache_step cache) w ops.

(** ** Scoped sessions *)

(** [with Cursor(file=...) as cur: body], the use the class documents. *)
Definition session {A} (options : gmap string string)
    (body : nat -> M World A) : M World A :=
  do self <- Cursor.__init__ false options;
  Cursor.with_ self body.

(** *** Concrete runs

    A process that works on the file [dejavu.db]. *)
Module Example.
Definition path : string := "dejavu.db".
Definition options : gmap string string := {[ "file"%string := path ]}.
Definition db : SQLiteDatabase.t := SQLiteDatabase.__init__ options.

(** A process that has created the schema in an empty file. *)
Definition create_schema : M World unit :=
  session options (fun cur =>
    do_ sqlite3.execute cur Sql.CREATE_SONGS_TABLE;
    do_ sqlite3.execute cur Sql.CREATE_FINGERPRINTS_TABLE;
    sqlite3.execute cur Sql.CREATE_TRIGGER_UPDATE_TIMESTAMP_ON_SONGS).
Definition ready : World := (create_schema (boot ∅ 1000)).1.

(** Two inserts in one session; the second hash is not hexadecimal,
    so the second statement raises [IntegrityError]. *)
Definition two_inserts (cur : nat) : M World unit :=
  do_ sqlite3.execute cur (Sql.INSERT_SONG "first" "ab" 1);
  sqlite3.execute cur (Sql.INSERT_SONG "second" "zz" 1).

(** An insert, then a plain [DatabaseError]. *)
Definition insert_then_fail (cur : nat) : M World unit :=
  do_ sqlite3.execute cur (Sql.INSERT_SONG "first" "ab" 1);
  raise (new_exn DatabaseError "file is not a database").

Definition in_some_queue (conn : nat) (w : World) : bool :=
  existsb (fun Q => bool_decide (conn ∈ Queue.queue Q)) (queues w).

(** Two songs, the second one marked fingerprinted, one fingerprint
    each; then the unfingerprinted songs are deleted and the hash of
    the first song's fingerprint is looked up. *)
Definition delete_then_query : M World (list row) :=
  do_ SQLiteDatabase.insert_song db "partial" "ab" 1;
  do_ SQLiteDatabase.insert_song db "complete" "cd" 1;
  do_ CommonDatabase.set_song_fingerprinted db 2;
  do_ CommonDatabase.insert db "beef" 1 7;
  do_ CommonDatabase.insert db "cafe" 2 9;
  do_ CommonDatabase.delete_unfingerprinted_songs db;
  CommonDatabase.query db "beef".
End Example.

(** ["deadbeef" * 5]. *)
Definition track_hash : string := "deadbeefdeadbeefdeadbeefdeadbeefdeadbeef".

(** * The vocabulary of the properties *)

(** The cache side of the store: the queues, the [Cursor] instances and
    the class attribute. *)
Definition same_caches (w w' : World) : Prop :=
  queues w' = queues w /\ instances w' = instances w /\
  Cursor_cache w' = Cursor_cache w.

(** ** A small program logic for the store

    [triple P m Q E]: from a store that satisfies [P], [m] ends in a
    store that satisfies [Q a] when it returns [a], and [E] when it
    raises. *)
Definition triple {A} (P : World -> Prop) (m : M World A)
    (Q : A -> World -> Prop) (E : World -> Prop) : Prop :=
  forall w, P w ->
    match m w with
    | (w', Ok a) => Q a w'
    | (w', Raise _) => E w'
    end.

(** A call that keeps [P], whatever it returns or raises. *)
Definition keeps {A} (P : World -> Prop) (m : M World A) : Prop :=
  triple P m (fun _ => P) P.

(** *** The [sqlite3] calls

    They touch neither the queues, nor the [Cursor] instances, nor the
    class attribute; they never drop a connection object and never turn
    foreign-key enforcement on. *)
Definition sql_step (w w' : World) : Prop :=
  same_caches w w' /\
  (length (connections w) <= length (connections w'))%nat /\
  (Forall (fun k => foreign_keys k = false) (connections w) ->
   Forall (fun k => foreign_keys k = false) (connections w')).

Definition stable (P : World -> Prop) : Prop :=
  forall w w', sql_step w w' -> P w -> P w'.

(** ** The invariant of a process

    Every queue is a [Queue(maxsize=5)] with at most five items; the
    cache of every [Cursor] instance is a queue of the store other than
    the class-level one; the class-level queue, once [clear_cache] has
    installed it, is empty; no connection enforces foreign keys; at
    least [n] connection objects exist. *)
Record inv (n : nat) (w : World) : Prop := {
  inv_conns : (n <= length (connections w))%nat;
  inv_fk : Forall (fun k => foreign_keys k = false) (connections w);
  inv_bounded :
    Forall (fun Q => Queue.maxsize Q = 5 /\ Queue.qsize Q <= 5) (queues w);
  inv_instances :
    Forall (fun o => (CursorObj._cache o < length (queues w))%nat /\
                     Cursor_cache w <> Some (CursorObj._cache o))
           (instances w);
  inv_class :
    match Cursor_cache w with
    | Some q => queues w !! q = Some (Queue.Queue 5)
    | None => True
    end
}.

(** The store after a successful [Cursor(dictionary, file=path)]. *)
Definition constructed (dictionary : bool) (path : string) (w : World)
    : World :=
  {| queues := queues w ++ [Queue.Queue 5];
     connections :=
       connections w ++
         [{| database := path; conn_closed := false; in_transaction := None;
             foreign_keys := false; row_factory := false;
             last_insert_rowid := 0 |}];
     cursors := cursors w;
     instances :=
       instances w ++
         [{| CursorObj._cache := length (queues w);
             CursorObj.conn := length (connections w);
             CursorObj.dictionary := dictionary;
             CursorObj.cursor := None |}];
     Cursor_cache := Cursor_cache w; files := files w; clock := clock w |}.

(** One cache of capacity [N], under the two cache operations. *)
Definition cache_within (N : Z) (cache : nat) (w : World) : Prop :=
  exists Q, queues w !! cache = Some Q /\
            Queue.maxsize Q = N /\ Queue.qsize Q <= N.

(** ** A session on fresh objects

    The store of a process with one more queue, connection, cursor and
    [Cursor] instance than [w]: the shape of the store all through a
    scoped session that starts in [w]. *)
Definition extended (w : World) (Q : Queue.t) (k : Connection)
    (u : SqliteCursor) (o : CursorObj.t) (fs : gmap string Sql.Database)
    : World :=
  {| queues := queues w ++ [Q]; connections := connections w ++ [k];
     cursors := cursors w ++ [u]; instances := instances w ++ [o];
     Cursor_cache := Cursor_cache w; files := fs; clock := clock w |}.

(** The objects of the session that starts in [w]. *)
Definition fresh_connection (path : string) : Connection :=
  {| database := path; conn_closed := false; in_transaction := None;
     foreign_keys := false; row_factory := false; last_insert_rowid := 0 |}.
Definition fresh_cursor (w : World) : SqliteCursor :=
  {| connection := length (connections w); cur_closed := false;
     cur_row_factory := false; cur_description := []; cur_rows := [];
     cur_lastrowid := None |}.
Definition entered_instance (w : World) : CursorObj.t :=
  {| CursorObj._cache := length (queues w);
     CursorObj.conn := length (connections w);
     CursorObj.dictionary := false;
     CursorObj.cursor := Some (length (cursors w)) |}.

(** The song row [INSERT_SONG] adds, and the database after it. *)
Definition inserted_song (now : Z) (db : Sql.Database) (ss : list Sql.Song.t)
    (name : string) (b : Sql.blob) (total : Z) : Sql.Song.t :=
  {| Sql.Song.song_id :=
       Z.max (Sql.songs_seq db) (Sql.max_rowid (Sql.Song.song_id <$> ss)) + 1;
     Sql.Song.song_name := name; Sql.Song.fingerprinted := 0;
     Sql.Song.file_sha1 := b; Sql.Song.total_hashes := total;
     Sql.Song.date_created := now; Sql.Song.date_modified := now |}.

Definition with_song (db : Sql.Database) (ss : list Sql.Song.t)
    (row : Sql.Song.t) : Sql.Database :=
  {| Sql.songs := Some (ss ++ [row]); Sql.songs_seq := Sql.Song.song_id row;
     Sql.songs_trigger := Sql.songs_trigger db;
     Sql.fingerprints := Sql.fingerprints db |}.

(** Upper case of a string of hexadecimal digits: [a]..[f] become
    [A]..[F]. *)
Definition upper_digit (c : ascii) : ascii :=
  let n := N_of_ascii c in
  if ((97 <=? n) && (n <=? 102))%N then ascii_of_N (n - 32) else c.

Fixpoint upper (s : string) : string :=
  match s with
  | EmptyString => EmptyString
  | String c rest => String (upper_digit c) (upper rest)
  end.

(** * More of the catalog and of the sessions *)

(** ** Sequences of catalog statements

    Each statement with the time it runs at, on a connection with the
    given foreign-key setting; a statement that fails changes nothing. *)
Definition run_statement (foreign_keys : bool) (db : Sql.Database)
    (ts : Z * Sql.statement) : Sql.Database :=
  match Sql.exec foreign_keys ts.1 db ts.2 with
  | Ok o => Sql.out_db o
  | Raise _ => db
  end.

Definition run_statements (foreign_keys : bool) (db : Sql.Database)
    (l : list (Z * Sql.statement)) : Sql.Database :=
  foldl (run_statement foreign_keys) db l.

(** The song ids that the [INSERT_SONG] statements of a sequence give
    out, in order. *)
Fixpoint inserted_song_ids (foreign_keys : bool) (db : Sql.Database)
    (l : list (Z * Sql.statement)) : list Z :=
  match l with
  | [] => []
  | ts :: rest =>
      let ids := inserted_song_ids foreign_keys
                   (run_statement foreign_keys db ts) rest in
      match ts.2, Sql.exec foreign_keys ts.1 db ts.2 with
      | Sql.INSERT_SONG _ _ _, Ok o =>
          match Sql.inserted o with
          | Some id => id :: ids
          | None => ids
          end
      | _, _ => ids
      end
  end.

(** The columns of the UNIQUE constraint of the fingerprints table. *)
Definition triple_of (f : Sql.Fingerprint.t) : Z * Z * Sql.blob :=
  (Sql.Fingerprint.song_id f, Sql.Fingerprint.offset f, Sql.Fingerprint.hash f).

Definition unique_triples (db : Sql.Database) : Prop :=
  NoDup (triple_of <$> default [] (Sql.fingerprints db)).

Definition unique_song_ids (db : Sql.Database) : Prop :=
  NoDup (Sql.Song.song_id <$> default [] (Sql.songs db)).

(** [SELECT COUNT(song_id) AS n FROM songs WHERE fingerprinted = 1]
    ([SELECT_UNIQUE_SONG_IDS]): the number it returns. *)
Definition exec_SELECT_UNIQUE_SONG_IDS (db : Sql.Database) : result Z :=
  match Sql.songs db with
  | None => Raise (new_exn OperationalError "no such table")
  | Some ss =>
      Ok (Z.of_nat (length (filter (fun s => Sql.Song.fingerprinted s = 1) ss)))
  end.

(** ** Sessions with either kind of row *)

(** [with Cursor(dictionary=..., file=...) as cur: body]. *)
Definition session_with {A} (dictionary : bool) (options : gmap string string)
    (body : nat -> M World A) : M World A :=
  do self <- Cursor.__init__ dictionary options;
  Cursor.with_ self body.

(** The first error [insert_song] runs into, if any, in the order
    [execute] goes through its steps: the songs table missing when the
    statement is prepared, then a hash count that cannot be bound, then
    the ids used up when the new id is allocated, then the NOT NULL
    constraint on the hash. *)
Definition insert_song_error (db : Sql.Database) (file_hash : string)
    (total_hashes : Z) : option exc_class :=
  if bool_decide (Sql.songs db = None) then Some OperationalError
  else if negb (Sql.int64 total_hashes) then Some OverflowError
  else if Sql.max_int64 <=?
            Z.max (Sql.songs_seq db)
              (Sql.max_rowid (Sql.Song.song_id <$> default [] (Sql.songs db)))
       then Some OperationalError
  else if bool_decide (Sql.UNHEX file_hash = None) then Some IntegrityError
  else None.
(** The objects of a session that starts in [w] with
    [dictionary=True]. *)
Definition dict_connection (path : string) : Connection :=
  {| database := path; conn_closed := false; in_transaction := None;
     foreign_keys := false; row_factory := true; last_insert_rowid := 0 |}.
Definition dict_cursor (w : World) : SqliteCursor :=
  {| connection := length (connections w); cur_closed := false;
     cur_row_factory := true; cur_description := []; cur_rows := [];
     cur_lastrowid := None |}.
Definition dict_instance (w : World) : CursorObj.t :=
  {| CursorObj._cache := length (queues w);
     CursorObj.conn := length (connections w);
     CursorObj.dictionary := true;
     CursorObj.cursor := Some (length (cursors w)) |}.

(** A song as [SELECT_SONG] returns it through [dict_factory]. *)
Definition song_dict (s : Sql.Song.t) : gmap Sql.column Sql.value :=
  <[Sql.FIELD_TOTAL_HASHES := Sql.INTEGER (Sql.Song.total_hashes s)]>
    (<[Sql.FIELD_FILE_SHA1 := Sql.TEXT (Sql.HEX (Sql.Song.file_sha1 s))]>
       (<[Sql.FIELD_SONGNAME := Sql.TEXT (Sql.Song.song_name s)]> ∅)).
(** ** One [Cursor] object, entered again and again *)

(** [with self: pass], [n] times in a row. *)
Fixpoint with_times (self : nat) (n : nat) : M World unit :=
  match n with
  | O => ret tt
  | S n => do_ Cursor.with_ self (fun _ => ret tt); with_times self n
  end.

(** A cursor of the session's connection, closed by [__exit__] before
    any statement ran on it. *)
Definition spent_cursor (w : World) : SqliteCursor :=
  {| connection := length (connections w); cur_closed := true;
     cur_row_factory := false; cur_description := []; cur_rows := [];
     cur_lastrowid := None |}.

(** The session's connection once [__exit__] has closed it. *)
Definition closed_connection (path : string) : Connection :=
  {| database := path; conn_closed := true; in_transaction := None;
     foreign_keys := false; row_factory := false; last_insert_rowid := 0 |}.
(** ** Sessions of several statements *)

(** [for s in statements: cur.execute(s)], the body of a session. *)
Fixpoint execute_all (cur : nat) (l : list Sql.statement) : M World unit :=
  match l with
  | [] => ret tt
  | s :: rest => do_ sqlite3.execute cur s; execute_all cur rest
  end.

(** The statements of a list one after the other up to the first that
    fails: the database then, and the error if there is one. *)
Fixpoint run_until_error (foreign_keys : bool) (now : Z) (db : Sql.Database)
    (l : list Sql.statement) : Sql.Database * option exn :=
  match l with
  | [] => (db, None)
  | s :: rest =>
      match Sql.exec foreign_keys now db s with
      | Ok o => run_until_error foreign_keys now (Sql.out_db o) rest
      | Raise e => (db, Some e)
      end
  end.

Definition result_of (err : option exn) : result unit :=
  match err with
  | None => Ok tt
  | Some e => Raise e
  end.

(** The database as a connection sees it: its open transaction, or
    the file. *)
Definition view (k : Connection) (fs : gmap string Sql.Database)
    : Sql.Database :=
  default (default Sql.empty_database (fs !! database k)) (in_transaction k).

(** ** Idle connections *)






(** * Properties *)

(** ** The queue *)
Section QueueFacts.
Import Queue.

Lemma put_nowait_spare (Q : Queue.t) (item : nat) :
  qsize Q < maxsize Q ->
  put_nowait Q item =
    Some {| maxsize := maxsize Q; queue := queue Q ++ [item] |}.
Proof.
  intros H. unfold put_nowait.
  destruct (maxsize Q <=? qsize Q) eqn:E; [lia|].
  by rewrite andb_false_r.
Qed.

Lemma put_nowait_full (Q : Queue.t) (item : nat) :
  0 < maxsize Q -> maxsize Q <= qsize Q -> put_nowait Q item = None.
Proof.
  intros H1 H2. unfold put_nowait.
  destruct (0 <? maxsize Q) eqn:E1; [|lia].
  destruct (maxsize Q <=? qsize Q) eqn:E2; [done|lia].
Qed.

Lemma put_nowait_bound (Q Q' : Queue.t) (item : nat) :
  0 < maxsize Q -> qsize Q <= maxsize Q ->
  put_nowait Q item = Some Q' ->
  maxsize Q' = maxsize Q /\ qsize Q' <= maxsize Q.
Proof.
  intros H1 H2. unfold put_nowait.
  destruct (0 <? maxsize Q) eqn:E1; [|lia].
  destruct (maxsize Q <=? qsize Q) eqn:E2; simpl; [done|].
  intros [= <-]. unfold qsize in *. simpl. rewrite length_app. simpl. lia.
Qed.

Lemma get_nowait_bound (Q Q' : Queue.t) (item : nat) :
  get_nowait Q = Some (item, Q') ->
  maxsize Q' = maxsize Q /\ qsize Q' <= qsize Q /\
  queue Q = item :: queue Q'.
Proof.
  unfold get_nowait. destruct (queue Q) as [|x rest] eqn:E; [done|].
  intros [= <- <-]. unfold qsize. rewrite E. simpl. split_and!; [done|lia|done].
Qed.
End QueueFacts.

(** ** What each call leaves alone *)

Ltac unfold_M :=
  unfold bind, ret, raise, modify, try_except, deref, dangling in *.

Ltac crush_M :=
  repeat first
    [ progress unfold_M | progress simpl in * | progress simplify_eq
    | case_match ];
  try done.

Ltac unfold_sqlite3 :=
  unfold sqlite3.execute, sqlite3.fetchone, sqlite3.fetchall,
    sqlite3.lastrowid, sqlite3.commit, sqlite3.rollback, sqlite3.close,
    sqlite3.Cursor_close, sqlite3.Cursor_rollback, sqlite3.Connection_cursor,
    sqlite3.Connection_ping, sqlite3.set_row_factory, sqlite3.connect,
    sqlite3.update_connection, sqlite3.update_cursor,
    sqlite3.closed_cursor, sqlite3.closed_database in *.

Ltac unfold_Cursor :=
  unfold Cursor.__init__, Cursor.__enter__, Cursor.__exit__,
    Cursor.clear_cache, Cursor.acquire, Cursor.release,
    Cursor.getattr_cursor, Cursor.getitem_file, Cursor.update_instance,
    new_Queue, get_nowait, put_nowait in *.

Section Triples.
Context {A B : Type}.

Lemma triple_ret (P : World -> Prop) (E : World -> Prop) (a : A) :
  triple P (ret a) (fun x w => x = a /\ P w) E.
Proof. intros w H. by simpl. Qed.

Lemma triple_raise (P : World -> Prop) (Q : A -> World -> Prop) e :
  triple P (raise e) Q P.
Proof. intros w H. by simpl. Qed.

Lemma triple_bind (P : World -> Prop) (m : M World A) (k : A -> M World B)
    (Q : A -> World -> Prop) (R : B -> World -> Prop) (E : World -> Prop) :
  triple P m Q E -> (forall a, triple (Q a) (k a) R E) ->
  triple P (bind m k) R E.
Proof.
  intros Hm Hk w H. unfold bind. specialize (Hm w H).
  destruct (m w) as [w1 [a|e]]; [by apply Hk|done].
Qed.

Lemma triple_try_except (P : World -> Prop) (m h : M World A) cls
    (Q : A -> World -> Prop) (E : World -> Prop) :
  triple P m Q E -> triple E h Q E -> triple P (try_except m cls h) Q E.
Proof.
  intros Hm Hh w H. unfold try_except. specialize (Hm w H).
  destruct (m w) as [w1 [a|e]]; [done|].
  destruct (is_ (exn_class e) cls); [|done].
  specialize (Hh w1 Hm). by destruct (h w1) as [w2 [a|e']].
Qed.

Lemma triple_conseq (P P' : World -> Prop) (m : M World A)
    (Q Q' : A -> World -> Prop) (E E' : World -> Prop) :
  triple P m Q E -> (forall w, P' w -> P w) ->
  (forall a w, Q a w -> Q' a w) -> (forall w, E w -> E' w) ->
  triple P' m Q' E'.
Proof.
  intros Hm HP HQ HE w H. specialize (Hm w (HP w H)).
  destruct (m w) as [w1 [a|e]]; auto.
Qed.

Lemma triple_deref (P : World -> Prop) (l : World -> list A) (i : nat) :
  triple P (deref l i) (fun a w => P w /\ l w !! i = Some a) P.
Proof.
  intros w H. unfold deref. destruct (l w !! i) eqn:E; by simpl.
Qed.
End Triples.

Lemma keeps_fst {A} (P : World -> Prop) (m : M World A) w :
  keeps P m -> P w -> P (m w).1.
Proof. intros Hm H. specialize (Hm w H). by destruct (m w) as [w1 [a|e]]. Qed.

Lemma keeps_bind {A B} (P : World -> Prop) (m : M World A)
    (k : A -> M World B) :
  keeps P m -> (forall a, keeps P (k a)) -> keeps P (bind m k).
Proof. intros Hm Hk. by eapply triple_bind. Qed.

Ltac fk_tac :=
  unfold sqlite3.with_transaction; simpl;
  match goal with
  | Hall : Forall _ (connections ?w), Hl : connections ?w !! _ = Some ?c
    |- foreign_keys ?c = false => exact (Forall_lookup_1 _ _ _ _ Hall Hl)
  end.

Ltac sql_step_tac :=
  unfold_sqlite3; crush_M;
  (split; [done|]); simpl;
  (split; [rewrite ?length_insert, ?length_app; simpl; lia|]);
  intros ?;
  first [ assumption
        | apply Forall_insert; [assumption | fk_tac]
        | apply Forall_app; split; [assumption | by repeat constructor] ].

Lemma execute_sql_step cur s w : sql_step w (sqlite3.execute cur s w).1.
Proof. sql_step_tac. Qed.
Lemma fetchone_sql_step cur w : sql_step w (sqlite3.fetchone cur w).1.
Proof. sql_step_tac. Qed.
Lemma fetchall_sql_step cur w : sql_step w (sqlite3.fetchall cur w).1.
Proof. sql_step_tac. Qed.
Lemma lastrowid_sql_step cur w : sql_step w (sqlite3.lastrowid cur w).1.
Proof. sql_step_tac. Qed.
Lemma commit_sql_step c w : sql_step w (sqlite3.commit c w).1.
Proof. sql_step_tac. Qed.
Lemma rollback_sql_step c w : sql_step w (sqlite3.rollback c w).1.
Proof. sql_step_tac. Qed.
Lemma close_sql_step c w : sql_step w (sqlite3.close c w).1.
Proof. sql_step_tac. Qed.
Lemma Cursor_close_sql_step c w : sql_step w (sqlite3.Cursor_close c w).1.
Proof. sql_step_tac. Qed.
Lemma Cursor_rollback_sql_step c w : sql_step w (sqlite3.Cursor_rollback c w).1.
Proof. sql_step_tac. Qed.
Lemma Connection_cursor_sql_step c w :
  sql_step w (sqlite3.Connection_cursor c w).1.
Proof. sql_step_tac. Qed.
Lemma Connection_ping_sql_step c b w :
  sql_step w (sqlite3.Connection_ping c b w).1.
Proof. sql_step_tac. Qed.
Lemma set_row_factory_sql_step c w :
  sql_step w (sqlite3.set_row_factory c w).1.
Proof. sql_step_tac. Qed.
Lemma connect_sql_step path w : sql_step w (sqlite3.connect path w).1.
Proof. sql_step_tac. Qed.

Lemma sql_step_keeps {A} (P : World -> Prop) (m : M World A) :
  (forall w, sql_step w (m w).1) -> stable P -> keeps P m.
Proof.
  intros Hm HP w H. specialize (Hm w). specialize (HP w _ Hm H).
  by destruct (m w) as [w1 [a|e]].
Qed.

Lemma inv_stable n : stable (inv n).
Proof.
  intros w w' [(Hq & Hi & Hc) [Hlen Hfk]] [H1 H2 H3 H4 H5].
  split; rewrite ?Hq, ?Hi, ?Hc; auto. lia.
Qed.

Lemma inv_boot fs now : inv 0 (boot fs now).
Proof. split; simpl; auto. Qed.

Lemma lookup_snoc {A} (l : list A) (x : A) : (l ++ [x]) !! length l = Some x.
Proof. by rewrite lookup_app_r, Nat.sub_diag. Qed.

(** *** [Cursor.__init__] and [Cursor.clear_cache], in full *)

Lemma Cursor_init_spec dictionary options w :
  Cursor.__init__ dictionary options w =
    match options !! "file"%string with
    | Some path => (constructed dictionary path w, Ok (length (instances w)))
    | None =>
        (set_queues (fun l => l ++ [Queue.Queue 5]) w,
         Raise (Exn KeyError "'file'" (Some (new_exn Empty EmptyString))))
    end.
Proof.
  unfold Cursor.__init__, Cursor.acquire, new_Queue, get_nowait,
    Cursor.getitem_file, sqlite3.connect.
  unfold_M. simpl. rewrite lookup_snoc. simpl.
  destruct (options !! "file"%string); reflexivity.
Qed.

Lemma clear_cache_spec w :
  Cursor.clear_cache w =
    (set_Cursor_cache (Some (length (queues w)))
       (set_queues (fun l => l ++ [Queue.Queue 5]) w), Ok tt).
Proof. reflexivity. Qed.

Lemma inv_new_queue n w :
  inv n w -> inv n (set_queues (fun l => l ++ [Queue.Queue 5]) w).
Proof.
  intros [H1 H2 H3 H4 H5]. split; simpl; auto.
  - apply Forall_app. split; [done|]. repeat constructor; done.
  - eapply Forall_impl; [exact H4|]. intros o [Ho1 Ho2]. split; [|done].
    rewrite length_app. simpl. lia.
  - destruct (Cursor_cache w) as [q|]; [|done].
    rewrite lookup_app_l; [done|]. by eapply lookup_lt_Some.
Qed.

Lemma inv_constructed n dictionary path w :
  inv n w -> inv n (constructed dictionary path w).
Proof.
  intros H. pose proof (inv_new_queue _ _ H) as [H1 H2 H3 H4 H5].
  simpl in *. split; simpl; auto.
  - rewrite length_app. lia.
  - apply Forall_app. split; [done|]. by repeat constructor.
  - apply Forall_app. split; [done|]. repeat constructor; simpl.
    + rewrite length_app. simpl. lia.
    + destruct H as [_ _ _ _ Hc].
      destruct (Cursor_cache w) as [q|]; [|done]. intros [= ->].
      apply lookup_lt_Some in Hc. lia.
Qed.

Lemma init_keeps_inv n dictionary options w :
  inv n w -> inv n (Cursor.__init__ dictionary options w).1.
Proof.
  intros H. rewrite Cursor_init_spec.
  destruct (options !! "file"%string); simpl;
    auto using inv_constructed, inv_new_queue.
Qed.

Lemma clear_cache_keeps_inv n w : inv n w -> inv n (Cursor.clear_cache w).1.
Proof.
  intros H. rewrite clear_cache_spec. simpl.
  pose proof (inv_new_queue _ _ H) as [H1 H2 H3 H4 H5]. simpl in *.
  destruct H as [_ _ _ Hi _].
  split; simpl; auto.
  - eapply Forall_impl; [exact Hi|]. intros o [Ho1 Ho2]. split.
    + rewrite length_app. simpl. lia.
    + intros [= Heq]. lia.
  - apply lookup_snoc.
Qed.

(** *** [__enter__] and [__exit__] *)

Lemma stable_with_instance n self o :
  stable (fun w => inv n w /\ instances w !! self = Some o).
Proof.
  intros w w' Hs [H1 H2]. split; [by eapply inv_stable|].
  destruct Hs as [(_ & Hi & _) _]. by rewrite Hi.
Qed.

Lemma update_instance_inv n self o o' :
  CursorObj._cache o' = CursorObj._cache o ->
  triple (fun w => inv n w /\ instances w !! self = Some o)
    (Cursor.update_instance self o') (fun _ => inv n) (inv n).
Proof.
  intros Heq w [[H1 H2 H3 H4 H5] Ho]. simpl. split; simpl; auto.
  apply Forall_insert; [done|]. rewrite Heq.
  by eapply (Forall_lookup_1 _ _ _ _ H4 Ho).
Qed.

Lemma keeps_weaken {A} (P E : World -> Prop) (m : M World A) :
  keeps P m -> (forall w, P w -> E w) -> triple P m (fun _ => P) E.
Proof. intros Hm HE. eapply triple_conseq; [exact Hm|done|done|done]. Qed.

Lemma enter_keeps_inv n self : keeps (inv n) (Cursor.__enter__ self).
Proof.
  unfold Cursor.__enter__.
  eapply triple_bind; [apply triple_deref|]. intros o.
  pose proof (stable_with_instance n self o) as Hst.
  set (P := fun w => inv n w /\ instances w !! self = Some o) in *.
  assert (HP : forall w, P w -> inv n w) by (by intros ? [? ?]).
  change (triple P
    (do_ (if CursorObj.dictionary o
          then sqlite3.set_row_factory (CursorObj.conn o) else ret tt);
     do cur <- sqlite3.Connection_cursor (CursorObj.conn o);
     do_ Cursor.update_instance self
           {| CursorObj._cache := CursorObj._cache o;
              CursorObj.conn := CursorObj.conn o;
              CursorObj.dictionary := CursorObj.dictionary o;
              CursorObj.cursor := Some cur |};
     ret cur) (fun _ => inv n) (inv n)).
  eapply triple_bind.
  { apply (keeps_weaken P); [|done].
    destruct (CursorObj.dictionary o).
    - apply sql_step_keeps; [apply set_row_factory_sql_step|done].
    - by intros w H. }
  intros ?. eapply triple_bind.
  { apply (keeps_weaken P); [|done].
    apply sql_step_keeps; [apply Connection_cursor_sql_step|done]. }
  intros cur. eapply triple_bind.
  { by apply (update_instance_inv n self o). }
  by intros ? w H.
Qed.

Lemma put_nowait_inv n self o item :
  triple (fun w => inv n w /\ instances w !! self = Some o)
    (put_nowait (CursorObj._cache o) item)
    (fun _ => inv n) (inv n).
Proof.
  intros w [H Ho]. unfold put_nowait, bind, deref.
  destruct (queues w !! CursorObj._cache o) as [Q|] eqn:EQ; [|done].
  destruct (Queue.put_nowait Q item) as [Q'|] eqn:EP; [|done].
  simpl. destruct H as [H1 H2 H3 H4 H5].
  pose proof (Forall_lookup_1 _ _ _ _ H3 EQ) as [Hm Hs].
  pose proof (Forall_lookup_1 _ _ _ _ H4 Ho) as [Hlt Hne].
  apply put_nowait_bound in EP as [Hm' Hs']; [|lia|lia].
  split; simpl; auto.
  - apply Forall_insert; [done|]. split; lia.
  - by rewrite length_insert.
  - destruct (Cursor_cache w) as [q|]; [|done].
    rewrite list_lookup_insert_ne; [done|]. congruence.
Qed.

Lemma release_inv n self o conn :
  triple (fun w => inv n w /\ instances w !! self = Some o)
    (Cursor.release (CursorObj._cache o) conn)
    (fun _ => inv n) (inv n).
Proof.
  unfold Cursor.release. intros w Hw. unfold try_except.
  pose proof (put_nowait_inv n self o conn w Hw) as Hput.
  destruct (put_nowait (CursorObj._cache o) conn w) as [w1 [[]|e]]; [done|].
  destruct (is_ (exn_class e) Full); [|done].
  pose proof (inv_stable n _ _ (close_sql_step conn w1) Hput) as Hc.
  by destruct (sqlite3.close conn w1) as [w2 [[]|e']].
Qed.

Lemma getattr_cursor_keeps (P : World -> Prop) self :
  keeps P (Cursor.getattr_cursor self).
Proof.
  intros w H. unfold Cursor.getattr_cursor, bind, deref.
  destruct (instances w !! self) as [o|]; [|done].
  by destruct (CursorObj.cursor o).
Qed.

Lemma exit_keeps_inv n self extype : keeps (inv n) (Cursor.__exit__ self extype).
Proof.
  unfold Cursor.__exit__.
  eapply triple_bind; [apply triple_deref|]. intros o.
  pose proof (stable_with_instance n self o) as Hst.
  set (P := fun w => inv n w /\ instances w !! self = Some o) in *.
  assert (HP : forall w, P w -> inv n w) by (by intros ? [? ?]).
  change (triple P
    (do_ (if from_option (fun c => is_ c DatabaseError) false extype
          then do cur <- Cursor.getattr_cursor self; sqlite3.Cursor_rollback cur
          else ret tt);
     do cur <- Cursor.getattr_cursor self;
     do_ sqlite3.Cursor_close cur;
     do_ sqlite3.commit (CursorObj.conn o);
     Cursor.release (CursorObj._cache o) (CursorObj.conn o))
    (fun _ => inv n) (inv n)).
  eapply triple_bind.
  { apply (keeps_weaken P); [|done].
    destruct (from_option _ _ _).
    - apply keeps_bind; [apply getattr_cursor_keeps|]. intros cur.
      apply sql_step_keeps; [apply Cursor_rollback_sql_step|done].
    - by intros w H. }
  intros ?. eapply triple_bind.
  { apply (keeps_weaken P); [apply getattr_cursor_keeps|done]. }
  intros cur. eapply triple_bind.
  { apply (keeps_weaken P); [|done].
    apply sql_step_keeps; [apply Cursor_close_sql_step|done]. }
  intros ?. eapply triple_bind.
  { apply (keeps_weaken P); [|done].
    apply sql_step_keeps; [apply commit_sql_step|done]. }
  intros ?. apply release_inv.
Qed.

Lemma step_keeps_inv n w o : inv n w -> inv n (step w o).
Proof.
  intros H. destruct o; simpl.
  - by apply init_keeps_inv.
  - by apply keeps_fst; [apply enter_keeps_inv|].
  - by apply keeps_fst; [apply exit_keeps_inv|].
  - by apply clear_cache_keeps_inv.
  - eapply inv_stable; [apply execute_sql_step|done].
  - eapply inv_stable; [apply fetchone_sql_step|done].
  - eapply inv_stable; [apply fetchall_sql_step|done].
  - by destruct H.
Qed.

Lemma run_keeps_inv n ops : forall w, inv n w -> inv n (run w ops).
Proof.
  induction ops as [|o ops IH]; intros w H; [done|].
  apply IH, step_keeps_inv, H.
Qed.

Lemma step_connections_grow w o :
  (length (connections w) <= length (connections (step w o)))%nat.
Proof.
  destruct o; simpl; unfold_Cursor; unfold_sqlite3; crush_M;
    rewrite ?length_insert, ?length_app; simpl; lia.
Qed.

Lemma run_connections_grow ops :
  forall w, (length (connections w) <= length (connections (run w ops)))%nat.
Proof.
  induction ops as [|o ops IH]; intros w; simpl; [done|].
  etrans; [apply step_connections_grow|apply IH].
Qed.

(** ** The connection cache *)

Lemma cache_within_stable N cache : stable (cache_within N cache).
Proof.
  intros w w' [(Hq & _ & _) _] (Q & H1 & H2). exists Q. by rewrite Hq.
Qed.

Lemma get_nowait_within N cache :
  keeps (cache_within N cache) (get_nowait cache).
Proof.
  intros w (Q & HQ & Hm & Hs). unfold get_nowait, bind, deref. rewrite HQ.
  destruct (Queue.get_nowait Q) as [[item Q']|] eqn:E; simpl.
  - apply get_nowait_bound in E as (Hm' & Hs' & _).
    exists Q'. split_and!; [|lia|lia].
    apply list_lookup_insert_eq. by eapply lookup_lt_Some.
  - by exists Q.
Qed.

Lemma put_nowait_within N cache item :
  0 < N -> keeps (cache_within N cache) (put_nowait cache item).
Proof.
  intros HN w (Q & HQ & Hm & Hs). unfold put_nowait, bind, deref. rewrite HQ.
  destruct (Queue.put_nowait Q item) as [Q'|] eqn:E; simpl.
  - apply put_nowait_bound in E as (Hm' & Hs'); [|lia|lia].
    exists Q'. split_and!; [|lia|lia].
    apply list_lookup_insert_eq. by eapply lookup_lt_Some.
  - by exists Q.
Qed.

Lemma keeps_try_except {A} (P : World -> Prop) (m h : M World A) cls :
  keeps P m -> keeps P h -> keeps P (try_except m cls h).
Proof. intros Hm Hh. by apply triple_try_except. Qed.

Lemma keeps_ret {A} (P : World -> Prop) (a : A) : keeps P (ret a).
Proof. by intros w H. Qed.

Lemma acquire_within N cache options :
  keeps (cache_within N cache) (Cursor.acquire cache options).
Proof.
  pose proof (cache_within_stable N cache) as Hst.
  unfold Cursor.acquire. apply keeps_try_except.
  - apply keeps_bind; [apply get_nowait_within|]. intros conn.
    apply keeps_bind; [|intros ?; apply keeps_ret].
    apply sql_step_keeps; [apply Connection_ping_sql_step|done].
  - unfold Cursor.getitem_file. destruct (options !! "file"%string).
    + apply keeps_bind; [apply keeps_ret|]. intros ?.
      apply sql_step_keeps; [apply connect_sql_step|done].
    + by intros w H.
Qed.

Lemma release_within N cache conn :
  0 < N -> keeps (cache_within N cache) (Cursor.release cache conn).
Proof.
  intros HN. unfold Cursor.release. apply keeps_try_except.
  - by apply put_nowait_within.
  - apply sql_step_keeps; [apply close_sql_step|apply cache_within_stable].
Qed.

Lemma cache_run_within N cache ops :
  0 < N -> forall w, cache_within N cache w ->
  cache_within N cache (cache_run cache w ops).
Proof.
  intros HN. induction ops as [|o ops IH]; intros w H; [done|].
  apply IH. destruct o; simpl.
  - apply keeps_fst; [apply acquire_within|done].
  - apply keeps_fst; [by apply release_within|done].
Qed.

(** What [release] does, by the room left in the cache. *)
Lemma release_spec (w : World) (cache conn : nat) (Q : Queue.t) :
  queues w !! cache = Some Q -> 0 < Queue.maxsize Q ->
  if Queue.qsize Q <? Queue.maxsize Q
  then Cursor.release cache conn w =
         (set_queues
            (fun l => <[cache := {| Queue.maxsize := Queue.maxsize Q;
                                    Queue.queue := Queue.queue Q ++ [conn] |}]> l)
            w, Ok tt)
  else match connections w !! conn with
       | Some k =>
           Cursor.release cache conn w =
             (set_connections
                (fun l => <[conn := {| database := database k;
                                       conn_closed := true;
                                       in_transaction := None;
                                       foreign_keys := foreign_keys k;
                                       row_factory := row_factory k;
                                       last_insert_rowid := last_insert_rowid k |}]> l)
                w, Ok tt)
       | None => (Cursor.release cache conn w).1 = w
       end.
Proof.
  intros HQ Hm. unfold Cursor.release, try_except, put_nowait, bind, deref.
  rewrite HQ. destruct (Queue.qsize Q <? Queue.maxsize Q) eqn:E.
  - rewrite put_nowait_spare by lia. reflexivity.
  - rewrite put_nowait_full by lia. simpl.
    unfold sqlite3.close, bind, deref.
    destruct (connections w !! conn) as [k|]; reflexivity.
Qed.


(** C10: in every state a process can reach, constructing a [Cursor]
    creates a new empty queue for that instance and takes from it, so it
    opens a new connection (or fails with [KeyError] when no file is
    configured); no instance has the class-level queue as its cache, and
    the class-level queue stays empty. *)
Theorem Cursor_always_fresh_cache (fs : gmap string Sql.Database) (now : Z)
    (ops : list op) (dictionary : bool) (options : gmap string string) :
  let w := run (boot fs now) ops in
  match options !! "file"%string with
  | Some path =>
      Cursor.__init__ dictionary options w =
        (constructed dictionary path w, Ok (length (instances w)))
  | None =>
      exists e, Cursor.__init__ dictionary options w =
                  (set_queues (fun l => l ++ [Queue.Queue 5]) w, Raise e) /\
                exn_class e = KeyError
  end /\
  queues w !! length (queues w) = None /\
  connections w !! length (connections w) = None /\
  Cursor_cache w <> Some (length (queues w)) /\
  Forall (fun o => Cursor_cache w <> Some (CursorObj._cache o)) (instances w) /\
  match Cursor_cache w with
  | Some q => queues w !! q = Some (Queue.Queue 5)
  | None => True
  end.
Proof.
  intros w.
  assert (Hinv : inv 0 w) by apply run_keeps_inv, inv_boot.
  destruct Hinv as [_ _ _ Hi Hc].
  split_and!.
  - rewrite Cursor_init_spec.
    destruct (options !! "file"%string); [done|]. by eexists.
  - by apply lookup_ge_None.
  - by apply lookup_ge_None.
  - destruct (Cursor_cache w) as [q|]; [|done]. intros [= ->].
    apply lookup_lt_Some in Hc. lia.
  - eapply Forall_impl; [exact Hi|]. by intros o [_ ?].
  - done.
Qed.

(** ** Sessions that end with an error *)

(** *** [__exit__] on the error path *)

(** With [extype] exactly [DatabaseError], [__exit__] stops at
    [self.cursor.rollback()]: it raises and the store is left as the
    body left it: nothing rolled back, the cursor not closed, the
    connection neither put on the queue nor closed. *)
Lemma exit_DatabaseError_raises (self : nat) (w : World) :
  exists e, Cursor.__exit__ self (Some DatabaseError) w = (w, Raise e) /\
            exn_class e <> DatabaseError /\
            (forall o cur, instances w !! self = Some o ->
                           CursorObj.cursor o = Some cur ->
                           exn_class e = AttributeError).
Proof.
  unfold Cursor.__exit__, Cursor.getattr_cursor, sqlite3.Cursor_rollback.
  unfold bind, deref, dangling, raise, ret. cbn [from_option].
  change (is_ DatabaseError DatabaseError) with true. cbv iota.
  destruct (instances w !! self) as [o|] eqn:E; cbv beta iota; rewrite ?E.
  - destruct (CursorObj.cursor o) as [cur|] eqn:Ec; cbv beta iota; rewrite ?Ec.
    + eexists. split_and!; [reflexivity|done|done].
    + eexists. split_and!; [reflexivity|done|]. intros ? ? [= <-]. congruence.
  - eexists. split_and!; [reflexivity|done|done].
Qed.

(** With any other exception class [__exit__] is the same as without
    an exception: no rollback, [commit]. *)
Lemma exit_other_error_commits (self : nat) (c : exc_class) (w : World) :
  c <> DatabaseError ->
  Cursor.__exit__ self (Some c) w = Cursor.__exit__ self None w.
Proof.
  intros Hc. unfold Cursor.__exit__. simpl. unfold is_.
  by rewrite bool_decide_eq_false_2.
Qed.

(** A body that raises exactly [DatabaseError]: the exception that
    leaves the [with] statement is the one [__exit__] raised, with the
    body's one as its context, and the store is as the body left it. *)
Lemma with_DatabaseError (A : Type) (self : nat) (body : nat -> M World A)
    (w w0 w1 : World) (cur : nat) (e0 : exn) :
  Cursor.__enter__ self w = (w0, Ok cur) ->
  body cur w0 = (w1, Raise e0) ->
  exn_class e0 = DatabaseError ->
  exists e, Cursor.with_ self body w = (w1, Raise e) /\
            exn_context e = Some e0 /\ exn_class e <> DatabaseError.
Proof.
  intros He Hb Hc. unfold Cursor.with_, bind. rewrite He, Hb, Hc.
  destruct (exit_DatabaseError_raises self w1) as (e & -> & Hne & _).
  exists (with_context e e0). split_and!; [done| |]; by destruct e.
Qed.

(** *** The acquire block on a cache that holds a connection *)
Lemma acquire_nonempty (w : World) (cache : nat) (Q : Queue.t)
    (conn : nat) (rest : list nat) (options : gmap string string) :
  queues w !! cache = Some Q -> Queue.queue Q = conn :: rest ->
  Cursor.acquire cache options w =
    (set_queues
       (fun l => <[cache := {| Queue.maxsize := Queue.maxsize Q;
                               Queue.queue := rest |}]> l) w,
     Raise (new_exn AttributeError
              "'sqlite3.Connection' object has no attribute 'ping'")).
Proof.
  intros HQ Hq. unfold Cursor.acquire, get_nowait, sqlite3.Connection_ping.
  unfold_M. rewrite HQ. unfold Queue.get_nowait. rewrite Hq. reflexivity.
Qed.

Lemma acquire_empty (w : World) (cache : nat) (Q : Queue.t)
    (path : string) (options : gmap string string) :
  queues w !! cache = Some Q -> Queue.queue Q = [] ->
  options !! "file"%string = Some path ->
  Cursor.acquire cache options w = sqlite3.connect path w.
Proof.
  intros HQ Hq Hf. unfold Cursor.acquire, get_nowait, Cursor.getitem_file.
  unfold_M. rewrite HQ. unfold Queue.get_nowait. rewrite Hq. simpl.
  rewrite Hf. reflexivity.
Qed.

(** C1: a session whose body raises [IntegrityError], a subclass of
    [DatabaseError], after a first insert: the error propagates, no
    rollback has taken place and the first insert is in the file. *)
Theorem failed_session_commits_partial_writes :
  let before := file_content Example.ready Example.path in
  let after :=
    file_content (session Example.options Example.two_inserts Example.ready).1
      Example.path in
  (session Example.options Example.two_inserts Example.ready).2 =
    Raise (new_exn IntegrityError "NOT NULL constraint failed: songs.file_sha1") /\
  issubclass_DatabaseError IntegrityError = true /\
  Sql.songs before = Some [] /\
  Sql.Song.song_name <$> default [] (Sql.songs after) = ["first"%string] /\
  after <> before.
Proof. vm_compute. split_and!; done. Qed.

(** C2: a session whose body raises [DatabaseError]: what reaches the
    caller is the [AttributeError] of the failed rollback; the body's
    error is only its context. *)
Theorem rollback_failure_replaces_original_error :
  (session Example.options Example.insert_then_fail Example.ready).2 =
    Raise (Exn AttributeError
             "'sqlite3.Cursor' object has no attribute 'rollback'"
             (Some (new_exn DatabaseError "file is not a database"))).
Proof. vm_compute. reflexivity. Qed.

(** C3: after that session its connection (object 1) is open, still in
    its transaction, and on no queue. *)
Theorem failed_session_loses_connection :
  let w := (session Example.options Example.insert_then_fail Example.ready).1 in
  CursorObj.conn <$> instances w !! 1%nat = Some 1%nat /\
  conn_closed <$> connections w !! 1%nat = Some false /\
  (fun k => bool_decide (in_transaction k = None)) <$> connections w !! 1%nat
    = Some false /\
  Example.in_some_queue 1 w = false.
Proof. vm_compute. split_and!; done. Qed.

(** C6: the connection of the session that created the schema
    (object 0) sits idle on that session's queue; the next [Cursor]
    does not take it but opens connection 1, and connection 0 stays
    where it was.  Had the acquire block been run on the queue that
    holds it, the ping would have raised to the caller, the connection
    gone from the queue. *)
Theorem idle_cached_connection_not_reused :
  queues Example.ready !! 0%nat
    = Some {| Queue.maxsize := 5; Queue.queue := [0%nat] |} /\
  (Cursor.__init__ false Example.options Example.ready).2 = Ok 1%nat /\
  (let w := (Cursor.__init__ false Example.options Example.ready).1 in
   CursorObj.conn <$> instances w !! 1%nat = Some 1%nat /\
   CursorObj._cache <$> instances w !! 1%nat = Some 1%nat /\
   queues w !! 0%nat = Some {| Queue.maxsize := 5; Queue.queue := [0%nat] |}) /\
  (Cursor.acquire 0 Example.options Example.ready).2 =
    Raise (new_exn AttributeError
             "'sqlite3.Connection' object has no attribute 'ping'") /\
  queues (Cursor.acquire 0 Example.options Example.ready).1 !! 0%nat
    = Some (Queue.Queue 5).
Proof. vm_compute. split_and!; done. Qed.

(** ** The statements *)

Lemma same_triple_refl sid b off row :
  Sql.Fingerprint.song_id row = sid -> Sql.Fingerprint.offset row = off ->
  Sql.Fingerprint.hash row = b -> Sql.same_triple sid b off row = true.
Proof.
  intros H1 H2 H3. unfold Sql.same_triple.
  by rewrite !bool_decide_eq_true_2.
Qed.

(** [INSERT OR IGNORE] on a table that already has the triple. *)
Lemma insert_fingerprint_again (foreign_keys : bool) (now now' : Z)
    (db : Sql.Database) (song_id : Z) (hash : string) (offset : Z)
    (o : Sql.outcome) :
  Sql.exec foreign_keys now db (Sql.INSERT_FINGERPRINT song_id hash offset)
    = Ok o ->
  Sql.exec foreign_keys now' (Sql.out_db o)
    (Sql.INSERT_FINGERPRINT song_id hash offset)
    = Sql.done (Sql.out_db o).
Proof.
  simpl. unfold Sql.exec_INSERT_FINGERPRINT.
  destruct (Sql.fingerprints db) as [fs|] eqn:Ef; [|done].
  destruct (foreign_keys && bool_decide (Sql.songs db = None)) eqn:Es; [done|].
  destruct (Sql.UNHEX hash) as [b|] eqn:Eh.
  - destruct (existsb (Sql.same_triple song_id b offset) fs) eqn:Ex.
    + intros [= <-]. simpl. by rewrite Ef, Es, Ex.
    + destruct (foreign_keys && negb _); [done|].
      intros [= <-]. simpl. rewrite Es.
      rewrite existsb_app. simpl.
      rewrite same_triple_refl by done. by rewrite orb_true_r.
  - intros [= <-]. simpl. by rewrite Ef, Es.
Qed.

(** C8: when the fingerprint insert has run for a triple, running it
    again for the same triple, at any later time, raises nothing and
    leaves the database as it is. *)
Theorem insert_fingerprint_idempotent (foreign_keys : bool) (now now' : Z)
    (db : Sql.Database) (song_id : Z) (hash : string) (offset : Z)
    (o : Sql.outcome) :
  Sql.exec foreign_keys now db (Sql.INSERT_FINGERPRINT song_id hash offset)
    = Ok o ->
  Sql.exec foreign_keys now' (Sql.out_db o)
    (Sql.INSERT_FINGERPRINT song_id hash offset)
    = Sql.done (Sql.out_db o).
Proof.
  apply insert_fingerprint_again.
Qed.

Lemma insert_fingerprint_idempotent_witness :
  let db := {| Sql.songs := Some []; Sql.songs_seq := 0;
               Sql.songs_trigger := false; Sql.fingerprints := Some [] |} in
  exists o,
    Sql.exec false 10 db (Sql.INSERT_FINGERPRINT 1 "beef" 7) = Ok o /\
    Sql.exec false 20 (Sql.out_db o) (Sql.INSERT_FINGERPRINT 1 "beef" 7)
      = Sql.done (Sql.out_db o).
Proof.
  intros db. eexists. split; [reflexivity|].
  apply (insert_fingerprint_idempotent false 10 20 db 1 "beef" 7).
  reflexivity.
Defined.

Lemma insert_fingerprint_no_rows foreign_keys now db song_id hash offset o :
  Sql.exec foreign_keys now db (Sql.INSERT_FINGERPRINT song_id hash offset)
    = Ok o ->
  Sql.description o = [] /\ Sql.rows o = [].
Proof.
  simpl. unfold Sql.exec_INSERT_FINGERPRINT, Sql.done, Sql.no_such_table.
  repeat case_match; try done; by intros [= <-].
Qed.

(** A statement that has run can be prepared. *)
Lemma prepare_exec_Ok (foreign_keys : bool) (now : Z) (db : Sql.Database)
    (s : Sql.statement) (o : Sql.outcome) :
  Sql.exec foreign_keys now db s = Ok o -> Sql.prepare foreign_keys db s = None.
Proof.
  destruct s; simpl; try done;
    unfold Sql.exec_INSERT_FINGERPRINT, Sql.exec_INSERT_SONG, Sql.exec_SELECT,
      Sql.exec_SELECT_SONG, Sql.exec_SELECT_NUM_FINGERPRINTS,
      Sql.exec_UPDATE_SONG_FINGERPRINTED, Sql.exec_DELETE_UNFINGERPRINTED,
      Sql.no_such_table;
    destruct (Sql.songs db) eqn:Es; destruct (Sql.fingerprints db) eqn:Ef;
    try done; by destruct foreign_keys.
Qed.

(** A statement that cannot be prepared fails with the same error when
    it is run. *)
Lemma prepare_exec_Raise (foreign_keys : bool) (now : Z) (db : Sql.Database)
    (s : Sql.statement) (e : exn) :
  Sql.prepare foreign_keys db s = Some e ->
  Sql.exec foreign_keys now db s = Raise e.
Proof.
  destruct s; simpl; try done;
    unfold Sql.exec_INSERT_FINGERPRINT, Sql.exec_INSERT_SONG, Sql.exec_SELECT,
      Sql.exec_SELECT_SONG, Sql.exec_SELECT_NUM_FINGERPRINTS,
      Sql.exec_UPDATE_SONG_FINGERPRINTED, Sql.exec_DELETE_UNFINGERPRINTED,
      Sql.no_such_table;
    destruct (Sql.songs db) eqn:Es; destruct (Sql.fingerprints db) eqn:Ef;
    try done; destruct foreign_keys; simpl; try done; by intros [= <-].
Qed.

Lemma prepare_after_insert_fingerprint (foreign_keys : bool) (now : Z)
    (db : Sql.Database) (song_id : Z) (hash : string) (offset : Z)
    (o : Sql.outcome) :
  Sql.exec foreign_keys now db (Sql.INSERT_FINGERPRINT song_id hash offset)
    = Ok o ->
  Sql.prepare foreign_keys (Sql.out_db o)
    (Sql.INSERT_FINGERPRINT song_id hash offset) = None.
Proof.
  intros Ho. eapply (prepare_exec_Ok _ now).
  by erewrite insert_fingerprint_again.
Qed.

(** The same through a cursor, at any later time: when the first
    [execute] has returned, the second one returns too and the store,
    the open transaction included, is as it was. *)
Lemma execute_insert_fingerprint_twice (w w1 : World) (cur : nat)
    (song_id : Z) (hash : string) (offset : Z) (later : Z) :
  sqlite3.execute cur (Sql.INSERT_FINGERPRINT song_id hash offset) w
    = (w1, Ok tt) ->
  sqlite3.execute cur (Sql.INSERT_FINGERPRINT song_id hash offset)
      (set_clock later w1)
    = (set_clock later w1, Ok tt).
Proof.
  unfold sqlite3.execute, bind, deref, dangling, raise,
    sqlite3.closed_cursor, sqlite3.closed_database.
  destruct (cursors w !! cur) as [u|] eqn:Eu; [|done].
  destruct (connections w !! connection u) as [k|] eqn:Ek; [|done].
  destruct (cur_closed u) eqn:Ecu; [done|].
  destruct (conn_closed k) eqn:Eck; [done|].
  cbn [Sql.is_dml andb sqlite3.is_insert].
  destruct (Sql.prepare _ _ _) as [e0|] eqn:Ep; [done|].
  destruct (negb _) eqn:Eb; [done|]. apply negb_false_iff in Eb.
  set (begun := if bool_decide (in_transaction k = None) then _ else k).
  assert (Htx : exists d, in_transaction begun = Some d).
  { subst begun. destruct (in_transaction k) as [d|] eqn:Et.
    - rewrite bool_decide_eq_false_2 by done. eauto.
    - rewrite bool_decide_eq_true_2 by done. simpl. eauto. }
  destruct Htx as [d Hd]. rewrite Hd. cbn [default from_option id].
  destruct (Sql.exec _ _ d _) as [o|e] eqn:Eo; [|done].
  intros [= <-].
  pose proof (lookup_lt_Some _ _ _ Eu) as Hlu.
  pose proof (lookup_lt_Some _ _ _ Ek) as Hlk.
  unfold set_clock, set_cursors, set_connections.
  cbn [cursors connections clock files queues instances Cursor_cache].
  rewrite (list_lookup_insert_eq (cursors w) cur) by done.
  cbn -[Sql.exec Sql.prepare Sql.bindable file_content].
  rewrite (list_lookup_insert_eq (connections w) (connection u)) by done.
  cbn -[Sql.exec Sql.prepare Sql.bindable file_content].
  rewrite (prepare_after_insert_fingerprint _ _ _ _ _ _ _ Eo).
  rewrite (insert_fingerprint_again _ _ _ _ _ _ _ _ Eo).
  apply insert_fingerprint_no_rows in Eo as [Hdesc Hrows].
  cbn -[Sql.exec Sql.prepare Sql.bindable file_content].
  rewrite !list_insert_insert_eq, Hdesc, Hrows. reflexivity.
Qed.

(** *** Deleting the unfingerprinted songs *)

(** The songs that go are exactly those with [fingerprinted = 0]. *)
Lemma delete_unfingerprinted_songs_exact (foreign_keys : bool)
    (db : Sql.Database) (ss : list Sql.Song.t) :
  Sql.songs db = Some ss ->
  exists o, Sql.exec_DELETE_UNFINGERPRINTED foreign_keys db = Ok o /\
    Sql.songs (Sql.out_db o)
      = Some (filter (fun s => Sql.Song.fingerprinted s <> 0) ss) /\
    forall s, s ∈ default [] (Sql.songs (Sql.out_db o)) <->
              s ∈ ss /\ Sql.Song.fingerprinted s <> 0.
Proof.
  intros Hs. unfold Sql.exec_DELETE_UNFINGERPRINTED. rewrite Hs.
  eexists. split; [reflexivity|]. simpl. split; [done|].
  intros s. rewrite list_elem_of_filter. tauto.
Qed.

(** On a connection that enforces foreign keys the fingerprints of the
    deleted songs go too: a hash that only they had is found no more. *)
Lemma delete_cascades_when_enforced (db : Sql.Database)
    (ss : list Sql.Song.t) (fs : list Sql.Fingerprint.t)
    (h : string) (b : Sql.blob) :
  Sql.songs db = Some ss -> Sql.fingerprints db = Some fs ->
  Sql.UNHEX h = Some b ->
  (forall f, f ∈ fs -> Sql.Fingerprint.hash f = b ->
     exists s, s ∈ ss /\ Sql.Song.song_id s = Sql.Fingerprint.song_id f /\
               Sql.Song.fingerprinted s = 0) ->
  exists o o', Sql.exec_DELETE_UNFINGERPRINTED true db = Ok o /\
               Sql.exec_SELECT (Sql.out_db o) h = Ok o' /\
               Sql.rows o' = [].
Proof.
  intros Hs Hf Hh Hsole. unfold Sql.exec_DELETE_UNFINGERPRINTED. rewrite Hs.
  eexists. unfold Sql.exec_SELECT, Sql.done. cbn [Sql.out_db Sql.fingerprints].
  rewrite Hf, Hh. cbn [fmap option_fmap option_map].
  eexists. split_and!; [reflexivity|reflexivity|].
  cbn [Sql.rows].
  match goal with |- _ <$> ?l = [] => assert (Hnil : l = []) end;
    [|by rewrite Hnil].
  apply elem_of_nil_inv. intros f.
  rewrite !list_elem_of_filter. intros (Hb & Hkeep & Hin).
  destruct (Hsole f Hin Hb) as (s & Hsin & Hid & Hflag).
  apply Hkeep. rewrite <- Hid. apply list_elem_of_fmap_2.
  by apply list_elem_of_filter.
Qed.

(** On a connection that does not, the fingerprints stay. *)
Lemma delete_without_cascade (db : Sql.Database) (o : Sql.outcome) :
  Sql.exec_DELETE_UNFINGERPRINTED false db = Ok o ->
  Sql.fingerprints (Sql.out_db o) = Sql.fingerprints db.
Proof.
  unfold Sql.exec_DELETE_UNFINGERPRINTED.
  destruct (Sql.songs db); [|done]. intros [= <-]. simpl.
  by destruct (Sql.fingerprints db).
Qed.

(** The connections of a process never enforce foreign keys. *)
Lemma connections_never_enforce_foreign_keys fs now ops :
  Forall (fun k => foreign_keys k = false)
         (connections (run (boot fs now) ops)).
Proof. apply (inv_fk 0), run_keeps_inv, inv_boot. Qed.

(** C9: song 1 is unfingerprinted and owns the only fingerprint with
    hash [beef]; after the delete song 1 is gone, song 2 is there, and
    the lookup of [beef] still returns song 1's fingerprint. *)
Theorem delete_unfingerprinted_leaves_fingerprints :
  let w := (Example.delete_then_query Example.ready).1 in
  (Example.delete_then_query Example.ready).2 =
    Ok [Tuple [Sql.INTEGER 1; Sql.INTEGER 7]] /\
  Sql.Song.song_id <$> default [] (Sql.songs (file_content w Example.path))
    = [2].
Proof. vm_compute. split_and!; done. Qed.

(** ** A session on fresh objects, step by step *)

Lemma insert_snoc {A} (l : list A) (x y : A) :
  <[length l := y]> (l ++ [x]) = l ++ [y].
Proof.
  rewrite insert_app_r_alt by lia. by rewrite Nat.sub_diag.
Qed.

Ltac fresh_objects :=
  repeat first
    [ rewrite lookup_snoc | rewrite insert_snoc
    | progress unfold set_queues, set_connections, set_cursors,
        set_instances, set_Cursor_cache, set_files, set_clock
    | progress simpl ].

Lemma enter_constructed (w : World) (path : string) :
  Cursor.__enter__ (length (instances w)) (constructed false path w) =
    (extended w (Queue.Queue 5) (fresh_connection path) (fresh_cursor w)
       (entered_instance w) (files w),
     Ok (length (cursors w))).
Proof.
  unfold Cursor.__enter__, Cursor.update_instance, sqlite3.Connection_cursor.
  unfold_M. unfold constructed. fresh_objects. reflexivity.
Qed.

(** [cursor.execute] in a session: the statement runs on the
    transaction's view of the file. *)
Lemma execute_extended (w : World) (Q : Queue.t) (k : Connection)
    (u : SqliteCursor) (o : CursorObj.t) (fs : gmap string Sql.Database)
    (s : Sql.statement) :
  connection u = length (connections w) ->
  cur_closed u = false -> conn_closed k = false ->
  Sql.bindable s = true ->
  let committed := default Sql.empty_database (fs !! database k) in
  Sql.prepare (foreign_keys k) (default committed (in_transaction k)) s
    = None ->
  let begun :=
    if Sql.is_dml s && bool_decide (in_transaction k = None)
    then sqlite3.with_transaction (Some committed) k else k in
  sqlite3.execute (length (cursors w)) s (extended w Q k u o fs) =
    match Sql.exec (foreign_keys k) (clock w)
            (default committed (in_transaction begun)) s with
    | Raise e => (extended w Q begun u o fs, Raise e)
    | Ok out =>
        let rowid := default (last_insert_rowid k) (Sql.inserted out) in
        (extended w Q
           {| database := database k; conn_closed := false;
              in_transaction :=
                match in_transaction begun with
                | Some _ => Some (Sql.out_db out)
                | None => None
                end;
              foreign_keys := foreign_keys k; row_factory := row_factory k;
              last_insert_rowid := rowid |}
           {| connection := connection u; cur_closed := false;
              cur_row_factory := cur_row_factory u;
              cur_description := Sql.description out;
              cur_rows := Sql.rows out;
              cur_lastrowid :=
                if sqlite3.is_insert s then Some rowid else cur_lastrowid u |}
           o
           match in_transaction begun with
           | Some _ => fs
           | None => <[database k := Sql.out_db out]> fs
           end,
         Ok tt)
    end.
Proof.
  intros Hu Hcu Hck Hb committed Hp. unfold sqlite3.execute, file_content.
  unfold_M. unfold extended. fresh_objects.
  rewrite Hu. fresh_objects. rewrite Hcu, Hck. cbn [files]. fold committed.
  rewrite Hp. fresh_objects. rewrite Hb. fresh_objects.
  destruct (Sql.exec _ _ _ s) as [out|e]; [|reflexivity].
  destruct (in_transaction
              (if Sql.is_dml s && bool_decide (in_transaction k = None)
               then _ else k)); fresh_objects; rewrite ?Hu; fresh_objects;
    reflexivity.
Qed.

(** A statement that cannot be prepared: nothing happens, no
    transaction is opened. *)
Lemma execute_extended_unprepared (w : World) (Q : Queue.t) (k : Connection)
    (u : SqliteCursor) (o : CursorObj.t) (fs : gmap string Sql.Database)
    (s : Sql.statement) (e : exn) :
  connection u = length (connections w) ->
  cur_closed u = false -> conn_closed k = false ->
  Sql.prepare (foreign_keys k)
    (default (default Sql.empty_database (fs !! database k))
       (in_transaction k)) s = Some e ->
  sqlite3.execute (length (cursors w)) s (extended w Q k u o fs) =
    (extended w Q k u o fs, Raise e).
Proof.
  intros Hu Hcu Hck Hp. unfold sqlite3.execute, file_content.
  unfold_M. unfold extended. fresh_objects.
  rewrite Hu. fresh_objects. rewrite Hcu, Hck. cbn [files]. rewrite Hp.
  reflexivity.
Qed.

(** The side condition of [execute_extended] on a file whose table is
    known to exist. *)
Ltac prepared H :=
  first [ done
        | simpl; unfold file_content in H; rewrite H; reflexivity ].

Lemma lastrowid_extended (w : World) Q k u o fs :
  sqlite3.lastrowid (length (cursors w)) (extended w Q k u o fs) =
    (extended w Q k u o fs, Ok (cur_lastrowid u)).
Proof.
  unfold sqlite3.lastrowid. unfold_M. unfold extended. fresh_objects.
  reflexivity.
Qed.

Lemma fetchone_extended (w : World) Q k u o fs :
  connection u = length (connections w) ->
  cur_closed u = false -> conn_closed k = false ->
  sqlite3.fetchone (length (cursors w)) (extended w Q k u o fs) =
    match cur_rows u with
    | [] => (extended w Q k u o fs, Ok None)
    | r :: rest =>
        (extended w Q k
           {| connection := connection u; cur_closed := false;
              cur_row_factory := cur_row_factory u;
              cur_description := cur_description u; cur_rows := rest;
              cur_lastrowid := cur_lastrowid u |} o fs,
         Ok (Some (sqlite3.make_row u r)))
    end.
Proof.
  intros Hu Hcu Hck. unfold sqlite3.fetchone, sqlite3.update_cursor.
  unfold_M. unfold extended. fresh_objects. rewrite Hu. fresh_objects.
  rewrite Hcu, Hck. destruct (cur_rows u); fresh_objects; reflexivity.
Qed.

(** [__exit__] without the rollback branch, the session's queue having
    room: cursor closed, transaction committed, connection on the
    queue. *)
Lemma exit_extended (w : World) Q k u fs extype :
  connection u = length (connections w) -> conn_closed k = false ->
  from_option (fun c => is_ c DatabaseError) false extype = false ->
  Queue.qsize Q < Queue.maxsize Q ->
  Cursor.__exit__ (length (instances w)) extype
      (extended w Q k u (entered_instance w) fs) =
    (extended w
       {| Queue.maxsize := Queue.maxsize Q;
          Queue.queue := Queue.queue Q ++ [length (connections w)] |}
       (sqlite3.with_transaction None k)
       {| connection := connection u; cur_closed := true;
          cur_row_factory := cur_row_factory u;
          cur_description := cur_description u; cur_rows := cur_rows u;
          cur_lastrowid := cur_lastrowid u |}
       (entered_instance w)
       match in_transaction k with
       | Some db => <[database k := db]> fs
       | None => fs
       end,
     Ok tt).
Proof.
  intros Hu Hck Hex HQ.
  unfold Cursor.__exit__, Cursor.getattr_cursor, Cursor.release,
    sqlite3.Cursor_close, sqlite3.commit, sqlite3.update_cursor,
    sqlite3.update_connection, put_nowait.
  unfold_M. unfold extended. fresh_objects. rewrite Hex. fresh_objects.
  rewrite Hu. fresh_objects. rewrite Hck. fresh_objects.
  rewrite Hck.
  destruct (in_transaction k) eqn:Et; fresh_objects;
    rewrite put_nowait_spare by done; fresh_objects; try reflexivity.
  destruct k; simpl in *; by subst.
Qed.

(** A scoped session, once the [Cursor] is constructed and entered. *)
Lemma session_spec {A} (options : gmap string string) (path : string)
    (body : nat -> M World A) (w : World) :
  options !! "file"%string = Some path ->
  session options body w =
    match body (length (cursors w))
            (extended w (Queue.Queue 5) (fresh_connection path)
               (fresh_cursor w) (entered_instance w) (files w)) with
    | (w1, Ok a) =>
        match Cursor.__exit__ (length (instances w)) None w1 with
        | (w2, Ok _) => (w2, Ok a)
        | (w2, Raise e') => (w2, Raise e')
        end
    | (w1, Raise e) =>
        match Cursor.__exit__ (length (instances w)) (Some (exn_class e)) w1 with
        | (w2, Ok _) => (w2, Raise e)
        | (w2, Raise e') => (w2, Raise (with_context e' e))
        end
    end.
Proof.
  intros Hfile. unfold session. unfold bind at 1.
  rewrite Cursor_init_spec, Hfile. unfold Cursor.with_, bind.
  by rewrite enter_constructed.
Qed.

Lemma max_rowid_ge (ids : list Z) (x : Z) : x ∈ ids -> x <= Sql.max_rowid ids.
Proof.
  unfold Sql.max_rowid. induction 1 as [x l|x y l _ IH]; simpl; lia.
Qed.

Lemma max_rowid_nonneg (ids : list Z) : 0 <= Sql.max_rowid ids.
Proof. unfold Sql.max_rowid. induction ids; simpl; lia. Qed.

(** [insert_song] on a file that has the songs table: the new row is
    committed and its id returned. *)
Lemma insert_song_spec (self : SQLiteDatabase.t) (w : World) (path : string)
    (ss : list Sql.Song.t) (name h : string) (b : Sql.blob) (total : Z) :
  SQLiteDatabase._options self !! "file"%string = Some path ->
  Sql.songs (file_content w path) = Some ss ->
  Sql.UNHEX h = Some b ->
  Sql.int64 total = true ->
  Z.max (Sql.songs_seq (file_content w path))
        (Sql.max_rowid (Sql.Song.song_id <$> ss)) < Sql.max_int64 ->
  let row := inserted_song (clock w) (file_content w path) ss name b total in
  exists w1,
    SQLiteDatabase.insert_song self name h total w
      = (w1, Ok (Some (Sql.Song.song_id row))) /\
    file_content w1 path = with_song (file_content w path) ss row /\
    clock w1 = clock w.
Proof.
  intros Hfile Hsongs Hb Htot Hmax row.
  change (SQLiteDatabase.insert_song self name h total)
    with (session (SQLiteDatabase._options self ∪ ∅) (fun cur =>
            do_ sqlite3.execute cur (Sql.INSERT_SONG name h total);
            sqlite3.lastrowid cur)).
  rewrite (session_spec _ path) by (by rewrite (right_id_L ∅ (∪))).
  unfold bind at 1.
  rewrite execute_extended by prepared Hsongs.
  cbn [Sql.is_dml fresh_connection in_transaction database foreign_keys
       andb Sql.exec].
  rewrite bool_decide_eq_true_2 by done.
  change (default Sql.empty_database (files w !! path))
    with (file_content w path).
  cbn [sqlite3.with_transaction in_transaction default from_option id].
  unfold Sql.exec_INSERT_SONG. rewrite Hsongs, Hb.
  apply Z.leb_gt in Hmax. rewrite Hmax.
  rewrite lastrowid_extended.
  rewrite exit_extended by done.
  eexists. split_and!; [reflexivity| |reflexivity].
  unfold file_content, extended. cbn [files in_transaction database].
  by rewrite lookup_insert_eq.
Qed.

(** Modelled fetch: the first row of [SELECT_SONG], if there is one. *)
Lemma get_song_by_id_spec (self : SQLiteDatabase.t) (w : World)
    (path : string) (ss : list Sql.Song.t) (song_id : Z) :
  SQLiteDatabase._options self !! "file"%string = Some path ->
  Sql.songs (file_content w path) = Some ss ->
  Sql.int64 song_id = true ->
  exists w1,
    CommonDatabase.get_song_by_id self song_id w =
      (w1, Ok (head ((fun s => Tuple [Sql.TEXT (Sql.Song.song_name s);
                                      Sql.TEXT (Sql.HEX (Sql.Song.file_sha1 s));
                                      Sql.INTEGER (Sql.Song.total_hashes s)])
                       <$> filter (fun s => Sql.Song.song_id s = song_id) ss))).
Proof.
  intros Hfile Hsongs Hid.
  change (CommonDatabase.get_song_by_id self song_id)
    with (session (SQLiteDatabase._options self ∪ ∅) (fun cur =>
            do_ sqlite3.execute cur (Sql.SELECT_SONG song_id);
            sqlite3.fetchone cur)).
  rewrite (session_spec _ path) by (by rewrite (right_id_L ∅ (∪))).
  unfold bind at 1.
  rewrite execute_extended by prepared Hsongs.
  cbn [Sql.is_dml fresh_connection in_transaction database foreign_keys
       andb Sql.exec default from_option id].
  change (default Sql.empty_database (files w !! path))
    with (file_content w path).
  unfold Sql.exec_SELECT_SONG, Sql.selected. rewrite Hsongs.
  cbn [Sql.rows Sql.description Sql.inserted Sql.out_db].
  rewrite fetchone_extended by done. cbn [cur_rows].
  destruct (filter _ ss) as [|s rest]; cbn [fmap list_fmap head].
  - rewrite exit_extended by done. by eexists.
  - rewrite exit_extended by done. by eexists.
Qed.

(** *** [hex] after [unhex] *)

Lemma hex_digit_value_upper (a : ascii) (d : N) :
  Sql.hex_digit_value a = Some d ->
  (d < 16)%N /\ Sql.hex_digit d = upper_digit a.
Proof.
  destruct a as [[] [] [] [] [] [] [] []]; vm_compute;
    intros [= <-]; split; reflexivity.
Qed.

Lemma to_N_byte_of_digits (hi lo : N) :
  (hi < 16)%N -> (lo < 16)%N ->
  Byte.to_N (Sql.byte_of_digits hi lo) = (hi * 16 + lo)%N.
Proof.
  intros Hhi Hlo. unfold Sql.byte_of_digits.
  destruct (Byte.of_N (hi * 16 + lo)) as [x|] eqn:E; simpl.
  - by apply Byte.to_of_N.
  - apply Byte.of_N_None_iff in E. lia.
Qed.

Lemma HEX_UNHEX_pairs (s : string) :
  (forall b, Sql.UNHEX s = Some b -> Sql.HEX b = upper s) /\
  (forall c b, Sql.UNHEX (String c s) = Some b ->
               Sql.HEX b = upper (String c s)).
Proof.
  induction s as [|a s [IH1 IH2]].
  - split; [by intros b [= <-]|done].
  - split; [apply IH2|]. intros c b. cbn [Sql.UNHEX].
    destruct (Sql.hex_digit_value c) as [hi|] eqn:Ec; [|done].
    destruct (Sql.hex_digit_value a) as [lo|] eqn:Ea; [|done].
    destruct (Sql.UNHEX s) as [tl|] eqn:Es; [|done].
    intros [= <-].
    apply hex_digit_value_upper in Ec as [Hhi Ehi].
    apply hex_digit_value_upper in Ea as [Hlo Elo].
    cbn [Sql.HEX upper]. rewrite to_N_byte_of_digits by done.
    replace ((hi * 16 + lo) / 16)%N with hi
      by (apply (N.div_unique _ 16 hi lo); lia).
    replace ((hi * 16 + lo) mod 16)%N with lo
      by (apply (N.mod_unique _ 16 hi lo); lia).
    by rewrite Ehi, Elo, (IH1 tl).
Qed.

(** What is read back is the upper-case form of what was written. *)
Lemma HEX_UNHEX (s : string) (b : Sql.blob) :
  Sql.UNHEX s = Some b -> Sql.HEX b = upper s.
Proof. apply HEX_UNHEX_pairs. Qed.

(** *** Insert a song, then fetch it *)
Lemma song_round_trip (self : SQLiteDatabase.t) (w : World)
    (path : string) (ss : list Sql.Song.t) (name h : string) (b : Sql.blob)
    (total : Z) :
  SQLiteDatabase._options self !! "file"%string = Some path ->
  Sql.songs (file_content w path) = Some ss ->
  Sql.UNHEX h = Some b ->
  Sql.int64 total = true ->
  Z.max (Sql.songs_seq (file_content w path))
        (Sql.max_rowid (Sql.Song.song_id <$> ss)) < Sql.max_int64 ->
  exists id w1 w2,
    SQLiteDatabase.insert_song self name h total w = (w1, Ok (Some id)) /\
    0 < id /\
    CommonDatabase.get_song_by_id self id w1 =
      (w2, Ok (Some (Tuple [Sql.TEXT name; Sql.TEXT (upper h);
                            Sql.INTEGER total]))).
Proof.
  intros Hfile Hsongs Hb Htot Hmax.
  destruct (insert_song_spec self w path ss name h b total)
    as (w1 & Hins & Hdb & _); [done..|].
  set (row := inserted_song _ _ _ _ _ _) in *.
  pose proof (max_rowid_nonneg (Sql.Song.song_id <$> ss)) as Hnn.
  assert (Hid : 0 < Sql.Song.song_id row) by (simpl; lia).
  destruct (get_song_by_id_spec self w1 path (ss ++ [row])
              (Sql.Song.song_id row)) as (w2 & Hget); [done| | |].
  { by rewrite Hdb. }
  { unfold Sql.int64, Sql.min_int64. simpl in *.
    apply andb_true_intro. split; [apply Z.leb_le|apply Z.leb_le]; lia. }
  exists (Sql.Song.song_id row), w1, w2. split_and!; [done|done|].
  rewrite Hget. do 3 f_equal.
  rewrite filter_app.
  assert (Hnone : filter (fun s => Sql.Song.song_id s = Sql.Song.song_id row) ss = []).
  { apply elem_of_nil_inv. intros s. rewrite list_elem_of_filter.
    intros [Heq Hin].
    assert (Sql.Song.song_id s <= Sql.max_rowid (Sql.Song.song_id <$> ss))
      by (by apply max_rowid_ge, list_elem_of_fmap_2).
    simpl in Heq. lia. }
  rewrite Hnone. rewrite filter_cons_True by done. rewrite filter_nil.
  simpl. by rewrite (HEX_UNHEX h b).
Qed.

(** C7, as the code has it: on a file that has the songs table and
    room for one more id, [insert_song("track", "deadbeef"*5, 42)]
    returns a positive id, and fetching that id returns the name
    ["track"], the hash in upper case
    ["DEADBEEFDEADBEEFDEADBEEFDEADBEEFDEADBEEF"], and 42. *)
Theorem insert_song_then_fetch_upper_case (self : SQLiteDatabase.t)
    (w : World) (path : string) (ss : list Sql.Song.t) :
  SQLiteDatabase._options self !! "file"%string = Some path ->
  Sql.songs (file_content w path) = Some ss ->
  Z.max (Sql.songs_seq (file_content w path))
        (Sql.max_rowid (Sql.Song.song_id <$> ss)) < Sql.max_int64 ->
  exists id w1 w2,
    SQLiteDatabase.insert_song self "track" track_hash 42 w
      = (w1, Ok (Some id)) /\
    0 < id /\
    CommonDatabase.get_song_by_id self id w1 =
      (w2, Ok (Some (Tuple [Sql.TEXT "track";
                            Sql.TEXT "DEADBEEFDEADBEEFDEADBEEFDEADBEEFDEADBEEF";
                            Sql.INTEGER 42]))).
Proof.
  intros Hfile Hsongs Hmax.
  destruct (Sql.UNHEX track_hash) as [b|] eqn:Hb; [|by vm_compute in Hb].
  exact (song_round_trip self w path ss "track" track_hash b 42
           Hfile Hsongs Hb eq_refl Hmax).
Qed.

Lemma insert_song_then_fetch_upper_case_witness :
  SQLiteDatabase._options Example.db !! "file"%string = Some Example.path /\
  Sql.songs (file_content Example.ready Example.path) = Some [] /\
  Z.max (Sql.songs_seq (file_content Example.ready Example.path))
        (Sql.max_rowid (Sql.Song.song_id <$> [])) < Sql.max_int64 /\
  exists id w1 w2,
    SQLiteDatabase.insert_song Example.db "track" track_hash 42 Example.ready
      = (w1, Ok (Some id)) /\
    0 < id /\
    CommonDatabase.get_song_by_id Example.db id w1 =
      (w2, Ok (Some (Tuple [Sql.TEXT "track";
                            Sql.TEXT "DEADBEEFDEADBEEFDEADBEEFDEADBEEFDEADBEEF";
                            Sql.INTEGER 42]))).
Proof.
  split_and!; [reflexivity|reflexivity|reflexivity|].
  apply (insert_song_then_fetch_upper_case Example.db Example.ready
           Example.path []); reflexivity.
Defined.

(** C7 as stated fails: the hash that comes back is not the lower-case
    string that went in. *)
Lemma insert_song_then_fetch_counterexample :
  (SQLiteDatabase.insert_song Example.db "track" track_hash 42 Example.ready).2
    = Ok (Some 1) /\
  (CommonDatabase.get_song_by_id Example.db 1
     (SQLiteDatabase.insert_song Example.db "track" track_hash 42
        Example.ready).1).2
    <> Ok (Some (Tuple [Sql.TEXT "track"; Sql.TEXT track_hash;
                        Sql.INTEGER 42])).
Proof. vm_compute. split; [reflexivity|discriminate]. Qed.

(** * More of the catalog and of the sessions: properties *)

(** ** More on [hex] and [unhex] *)

Lemma hex_digit_value_hex_digit (d : N) :
  (d < 16)%N -> Sql.hex_digit_value (Sql.hex_digit d) = Some d.
Proof.
  intros H.
  assert (d = 0 \/ d = 1 \/ d = 2 \/ d = 3 \/ d = 4 \/ d = 5 \/ d = 6 \/
          d = 7 \/ d = 8 \/ d = 9 \/ d = 10 \/ d = 11 \/ d = 12 \/
          d = 13 \/ d = 14 \/ d = 15)%N as Hd by lia.
  repeat (destruct Hd as [->|Hd]; [reflexivity|]). by subst.
Qed.

Lemma byte_of_digits_to_N (x : Byte.byte) :
  Sql.byte_of_digits (Byte.to_N x / 16) (Byte.to_N x mod 16) = x.
Proof.
  unfold Sql.byte_of_digits.
  replace (Byte.to_N x / 16 * 16 + Byte.to_N x mod 16)%N with (Byte.to_N x).
  - by rewrite Byte.of_to_N.
  - rewrite (N.div_mod (Byte.to_N x) 16) at 1 by done. lia.
Qed.

(** X1: decoding the hexadecimal rendering of a blob gives the blob
    back. *)
Theorem UNHEX_HEX (b : Sql.blob) : Sql.UNHEX (Sql.HEX b) = Some b.
Proof.
  induction b as [|x b IH]; [done|].
  cbn [Sql.HEX Sql.UNHEX].
  pose proof (Byte.to_N_bounded x) as Hx.
  rewrite !hex_digit_value_hex_digit, IH, byte_of_digits_to_N; [done| |].
  - apply N.mod_lt. done.
  - apply N.Div0.div_lt_upper_bound. lia.
Qed.

Lemma hex_digit_value_upper_digit (c : ascii) :
  Sql.hex_digit_value (upper_digit c) = Sql.hex_digit_value c.
Proof. destruct c as [[] [] [] [] [] [] [] []]; reflexivity. Qed.

Lemma UNHEX_upper_pairs (s : string) :
  Sql.UNHEX (upper s) = Sql.UNHEX s /\
  forall c, Sql.UNHEX (upper (String c s)) = Sql.UNHEX (String c s).
Proof.
  induction s as [|a s [IH1 IH2]].
  - split; [done|]. intros c. reflexivity.
  - split; [apply IH2|]. intros c. cbn [upper Sql.UNHEX].
    rewrite !hex_digit_value_upper_digit. cbn [upper] in IH1.
    by rewrite IH1.
Qed.

Lemma UNHEX_length_pairs (s : string) :
  (forall b, Sql.UNHEX s = Some b ->
             String.length s = (2 * length b)%nat) /\
  (forall c b, Sql.UNHEX (String c s) = Some b ->
               String.length (String c s) = (2 * length b)%nat).
Proof.
  induction s as [|a s [IH1 IH2]].
  - split; [by intros b [= <-]|done].
  - split; [apply IH2|]. intros c b. cbn [Sql.UNHEX].
    destruct (Sql.hex_digit_value c); [|done].
    destruct (Sql.hex_digit_value a); [|done].
    destruct (Sql.UNHEX s) as [tl|]; [|done].
    intros [= <-]. cbn [String.length length]. rewrite (IH1 tl) by done. lia.
Qed.

(** X2: a string that decodes is read back in upper case, and has two
    characters for every byte. *)
Theorem HEX_of_UNHEX (s : string) (b : Sql.blob) :
  Sql.UNHEX s = Some b ->
  Sql.HEX b = upper s /\ String.length s = (2 * length b)%nat.
Proof.
  intros H. split; [by apply HEX_UNHEX|by apply UNHEX_length_pairs].
Qed.

Lemma HEX_of_UNHEX_witness :
  Sql.UNHEX "beef" = Some [Byte.xbe; Byte.xef] /\
  Sql.HEX [Byte.xbe; Byte.xef] = upper "beef" /\
  String.length "beef" = (2 * length [Byte.xbe; Byte.xef])%nat.
Proof.
  split; [reflexivity|].
  apply (HEX_of_UNHEX "beef" [Byte.xbe; Byte.xef]). reflexivity.
Defined.

(** X3: the letter case of a hexadecimal string does not matter to what
    it decodes to. *)
Theorem UNHEX_upper (s : string) : Sql.UNHEX (upper s) = Sql.UNHEX s.
Proof. apply UNHEX_upper_pairs. Qed.

(** ** Sequences of statements *)

Lemma run_statements_snoc fk db l ts :
  run_statements fk db (l ++ [ts]) = run_statement fk (run_statements fk db l) ts.
Proof. unfold run_statements. by rewrite foldl_app. Qed.

Lemma same_triple_elem sid b off fs :
  existsb (Sql.same_triple sid b off) fs = false ->
  (sid, off, b) ∉ triple_of <$> fs.
Proof.
  intros H Hin. apply list_elem_of_fmap in Hin as (f & Heq & Hf).
  assert (existsb (Sql.same_triple sid b off) fs = true); [|congruence].
  apply existsb_exists. exists f. split; [by apply list_elem_of_In|].
  unfold triple_of in Heq. injection Heq as -> -> ->.
  by apply same_triple_refl.
Qed.

(** What a statement can do to the fingerprints table: nothing, create
    it empty, add a row with a new triple, or remove rows. *)
Lemma exec_fingerprints fk now db s o :
  Sql.exec fk now db s = Ok o ->
  Sql.fingerprints (Sql.out_db o) = Sql.fingerprints db \/
  (Sql.fingerprints db = None /\ Sql.fingerprints (Sql.out_db o) = Some []) \/
  (exists fs row, Sql.fingerprints db = Some fs /\
     Sql.fingerprints (Sql.out_db o) = Some (fs ++ [row]) /\
     triple_of row ∉ triple_of <$> fs) \/
  (exists fs fs', Sql.fingerprints db = Some fs /\
     Sql.fingerprints (Sql.out_db o) = Some fs' /\ sublist fs' fs).
Proof.
  destruct s; simpl;
    unfold Sql.exec_INSERT_FINGERPRINT, Sql.exec_INSERT_SONG, Sql.exec_SELECT,
      Sql.exec_SELECT_SONG, Sql.exec_SELECT_NUM_FINGERPRINTS,
      Sql.exec_UPDATE_SONG_FINGERPRINTED, Sql.exec_DELETE_UNFINGERPRINTED,
      Sql.done, Sql.selected, Sql.no_such_table;
    repeat case_match; try done; intros [= <-]; simpl; auto.
  - destruct (Sql.fingerprints db); simpl; auto.
  - right; right; left. eexists _, _. split_and!; [done|done|].
    by apply same_triple_elem.
  - destruct (Sql.fingerprints db) as [fs|]; simpl; [|by left].
    right; right; right. eexists _, _. split_and!; [done|done|].
    apply sublist_filter.
  - destruct (Sql.fingerprints db); simpl; auto.
Qed.

Lemma run_statement_unique_triples fk db ts :
  unique_triples db -> unique_triples (run_statement fk db ts).
Proof.
  unfold unique_triples, run_statement. intros H.
  destruct (Sql.exec fk ts.1 db ts.2) as [o|e] eqn:E; [|done].
  apply exec_fingerprints in E
    as [->|[[_ ->]|[(fs & row & Hfs & -> & Hnew)|(fs & fs' & Hfs & -> & Hsub)]]];
    simpl.
  - done.
  - constructor.
  - rewrite Hfs in H. simpl in H. rewrite fmap_app. apply NoDup_app.
    split_and!; [done| |apply NoDup_singleton].
    intros x Hx Hin. apply list_elem_of_singleton in Hin. by subst.
  - rewrite Hfs in H. simpl in H. eapply sublist_NoDup; [exact H|].
    by apply fmap_sublist.
Qed.

(** X4: no sequence of catalog statements, on either kind of
    connection, puts two rows with the same (song_id, offset, hash) in
    the fingerprints table. *)
Theorem fingerprint_triples_stay_unique (foreign_keys : bool)
    (db : Sql.Database) (l : list (Z * Sql.statement)) :
  unique_triples db -> unique_triples (run_statements foreign_keys db l).
Proof.
  revert db. induction l as [|ts l IH]; intros db H; [done|].
  apply IH, run_statement_unique_triples, H.
Qed.

Lemma fingerprint_triples_stay_unique_witness :
  let l := [(1, Sql.CREATE_FINGERPRINTS_TABLE);
            (2, Sql.INSERT_FINGERPRINT 1 "beef" 7);
            (3, Sql.INSERT_FINGERPRINT 1 "BEEF" 7);
            (4, Sql.INSERT_FINGERPRINT 1 "beef" 8)] in
  unique_triples Sql.empty_database /\
  unique_triples (run_statements false Sql.empty_database l) /\
  length (default [] (Sql.fingerprints
                        (run_statements false Sql.empty_database l))) = 2%nat.
Proof.
  intros l.
  assert (H : unique_triples Sql.empty_database) by constructor.
  split_and!; [exact H| |reflexivity].
  exact (fingerprint_triples_stay_unique false Sql.empty_database l H).
Defined.

Ltac unfold_exec :=
  unfold Sql.exec_INSERT_FINGERPRINT, Sql.exec_INSERT_SONG, Sql.exec_SELECT,
    Sql.exec_SELECT_SONG, Sql.exec_SELECT_NUM_FINGERPRINTS,
    Sql.exec_UPDATE_SONG_FINGERPRINTED, Sql.exec_DELETE_UNFINGERPRINTED,
    Sql.done, Sql.selected, Sql.no_such_table.

(** What a statement can do to the songs table: nothing, create it
    empty, add a row with the next id, remove rows, or change rows
    without touching their ids. *)
Lemma exec_songs fk now db s o :
  Sql.exec fk now db s = Ok o ->
  Sql.songs (Sql.out_db o) = Sql.songs db \/
  (Sql.songs db = None /\ Sql.songs (Sql.out_db o) = Some []) \/
  (exists ss row, Sql.songs db = Some ss /\
     Sql.songs (Sql.out_db o) = Some (ss ++ [row]) /\
     Sql.Song.song_id row =
       Z.max (Sql.songs_seq db) (Sql.max_rowid (Sql.Song.song_id <$> ss)) + 1) \/
  (exists ss ss', Sql.songs db = Some ss /\
     Sql.songs (Sql.out_db o) = Some ss' /\ sublist ss' ss) \/
  (exists ss ss', Sql.songs db = Some ss /\
     Sql.songs (Sql.out_db o) = Some ss' /\
     Sql.Song.song_id <$> ss' = Sql.Song.song_id <$> ss).
Proof.
  destruct s; simpl; unfold_exec;
    repeat case_match; try done; intros [= <-]; simpl; auto.
  all: first
    [ by (destruct (Sql.songs db); simpl; auto)
    | by (right; right; left; eexists _, _; split_and!)
    | by (right; right; right; left; eexists _, _;
          split_and!; [done|done|apply sublist_filter])
    | right; right; right; right; eexists _, _; split_and!; [done|done|];
      rewrite <- list_fmap_compose; apply list_fmap_ext;
      intros i s _; simpl; by case_bool_decide ].
Qed.

(** The sequence counter only moves at an [INSERT_SONG], to the id
    given out, which is above it. *)
Lemma exec_songs_seq fk now db s o :
  Sql.exec fk now db s = Ok o ->
  match s, Sql.inserted o with
  | Sql.INSERT_SONG _ _ _, Some id =>
      Sql.songs_seq db < id /\ Sql.songs_seq (Sql.out_db o) = id
  | _, _ => Sql.songs_seq (Sql.out_db o) = Sql.songs_seq db
  end.
Proof.
  destruct s; simpl; unfold_exec;
    repeat case_match; try done; intros [= <-]; simpl in *; simplify_eq;
    try done.
  split; [lia|done].
Qed.

Lemma run_statement_unique_song_ids fk db ts :
  unique_song_ids db -> unique_song_ids (run_statement fk db ts).
Proof.
  unfold unique_song_ids, run_statement. intros H.
  destruct (Sql.exec fk ts.1 db ts.2) as [o|e] eqn:E; [|done].
  apply exec_songs in E
    as [->|[[_ ->]|[(ss & row & Hss & -> & Hid)|
         [(ss & ss' & Hss & -> & Hsub)|(ss & ss' & Hss & -> & Hids)]]]];
    simpl.
  - done.
  - constructor.
  - rewrite Hss in H. simpl in H. rewrite fmap_app. apply NoDup_app.
    split_and!; [done| |apply NoDup_singleton].
    intros x Hx Hin. apply list_elem_of_singleton in Hin. subst x.
    apply max_rowid_ge in Hx. simpl in Hx. lia.
  - rewrite Hss in H. simpl in H. eapply sublist_NoDup; [exact H|].
    by apply fmap_sublist.
  - rewrite Hss in H. simpl in H. by rewrite Hids.
Qed.

(** X5: the songs table never holds two songs with the same id,
    whatever sequence of catalog statements runs. *)
Theorem song_ids_stay_unique (foreign_keys : bool) (db : Sql.Database)
    (l : list (Z * Sql.statement)) :
  unique_song_ids db -> unique_song_ids (run_statements foreign_keys db l).
Proof.
  revert db. induction l as [|ts l IH]; intros db H; [done|].
  apply IH, run_statement_unique_song_ids, H.
Qed.

Lemma song_ids_stay_unique_witness :
  let l := [(1, Sql.CREATE_SONGS_TABLE);
            (2, Sql.INSERT_SONG "a" "ab" 1);
            (3, Sql.DELETE_UNFINGERPRINTED);
            (4, Sql.INSERT_SONG "b" "cd" 1)] in
  unique_song_ids Sql.empty_database /\
  unique_song_ids (run_statements false Sql.empty_database l) /\
  Sql.Song.song_id <$> default [] (Sql.songs
     (run_statements false Sql.empty_database l)) = [2].
Proof.
  intros l.
  assert (H : unique_song_ids Sql.empty_database) by constructor.
  split_and!; [exact H| |reflexivity].
  exact (song_ids_stay_unique false Sql.empty_database l H).
Defined.

Lemma run_statement_songs_seq fk db ts :
  Sql.songs_seq db <= Sql.songs_seq (run_statement fk db ts).
Proof.
  unfold run_statement.
  destruct (Sql.exec fk ts.1 db ts.2) as [o|e] eqn:E; [|done].
  apply exec_songs_seq in E.
  destruct ts.2, (Sql.inserted o); lia.
Qed.

(** X6: along any sequence of catalog statements, deletions included,
    the ids that [INSERT_SONG] gives out are strictly increasing and
    above the sequence counter the database started with: an id is
    never given out twice. *)
Theorem song_ids_never_reused (foreign_keys : bool) (db : Sql.Database)
    (l : list (Z * Sql.statement)) :
  StronglySorted Z.lt (inserted_song_ids foreign_keys db l) /\
  Forall (fun id => Sql.songs_seq db < id)
         (inserted_song_ids foreign_keys db l).
Proof.
  revert db. induction l as [|[now s] l IH]; intros db;
    [by split; constructor|].
  destruct (IH (run_statement foreign_keys db (now, s))) as [Hs Hf].
  pose proof (run_statement_songs_seq foreign_keys db (now, s)) as Hmono.
  assert (Hf' : Forall (fun id => Sql.songs_seq db < id)
                  (inserted_song_ids foreign_keys
                     (run_statement foreign_keys db (now, s)) l)).
  { eapply Forall_impl; [exact Hf|]. simpl. intros. lia. }
  cbn [inserted_song_ids fst snd].
  destruct (Sql.exec foreign_keys now db s) as [o|e] eqn:E;
    [|by destruct s].
  pose proof (exec_songs_seq _ _ _ _ _ E) as Hseq.
  destruct s; try done.
  destruct (Sql.inserted o) as [id|]; [|done].
  destruct Hseq as [Hlt Heq].
  unfold run_statement in Hf, Hs. cbn [fst snd] in Hf, Hs.
  rewrite E in Hf, Hs. rewrite Heq in Hf.
  unfold run_statement. cbn [fst snd]. rewrite E.
  split.
  - constructor; [exact Hs|exact Hf].
  - constructor; [exact Hlt|].
    eapply Forall_impl; [exact Hf|]. simpl. intros. lia.
Qed.

(** ** Fingerprints: insert and look up *)

(** X7: a fingerprint that has been inserted is found by the
    single-hash lookup, under any spelling of its hash that decodes to
    the same bytes (upper or lower case). *)
Theorem select_finds_inserted (foreign_keys : bool) (now now' : Z)
    (db : Sql.Database) (song_id offset : Z) (hash hash' : string)
    (b : Sql.blob) (o : Sql.outcome) :
  Sql.exec foreign_keys now db (Sql.INSERT_FINGERPRINT song_id hash offset)
    = Ok o ->
  Sql.UNHEX hash = Some b -> Sql.UNHEX hash' = Some b ->
  exists o',
    Sql.exec foreign_keys now' (Sql.out_db o) (Sql.SELECT hash') = Ok o' /\
    [Sql.INTEGER song_id; Sql.INTEGER offset] ∈ Sql.rows o'.
Proof.
  simpl. unfold Sql.exec_INSERT_FINGERPRINT, Sql.exec_SELECT, Sql.selected.
  intros E Hb Hb'. rewrite Hb in E. rewrite Hb'.
  destruct (Sql.fingerprints db) as [fs|] eqn:Ef; [|done].
  destruct (foreign_keys && bool_decide (Sql.songs db = None)); [done|].
  assert (Hrow : forall fs' : list Sql.Fingerprint.t,
            (exists f, f ∈ fs' /\ triple_of f = (song_id, offset, b)) ->
            [Sql.INTEGER song_id; Sql.INTEGER offset] ∈
              (fun f => [Sql.INTEGER (Sql.Fingerprint.song_id f);
                         Sql.INTEGER (Sql.Fingerprint.offset f)])
                <$> filter (fun f => Sql.Fingerprint.hash f = b) fs').
  { intros fs' (f & Hf & Heq). unfold triple_of in Heq.
    injection Heq as <- <- <-.
    apply (list_elem_of_fmap_2 (fun f => [Sql.INTEGER (Sql.Fingerprint.song_id f);
                         Sql.INTEGER (Sql.Fingerprint.offset f)])).
    by apply list_elem_of_filter. }
  destruct (existsb _ fs) eqn:Ex.
  - injection E as <-. simpl. rewrite Ef. eexists. split; [done|]. simpl.
    apply Hrow. apply existsb_exists in Ex as (f & Hf & Hsame).
    exists f. split; [by apply list_elem_of_In|].
    unfold Sql.same_triple in Hsame.
    apply andb_prop in Hsame as [[H1 H2]%andb_prop H3].
    apply bool_decide_eq_true in H1, H2, H3. unfold triple_of. congruence.
  - destruct (foreign_keys && negb _); [done|]. injection E as <-. simpl.
    eexists. split; [done|]. simpl. apply Hrow. eexists. split.
    + apply elem_of_app. right. by apply list_elem_of_singleton.
    + done.
Qed.

Lemma select_finds_inserted_witness :
  let db := {| Sql.songs := None; Sql.songs_seq := 0;
               Sql.songs_trigger := false; Sql.fingerprints := Some [] |} in
  exists o o',
    Sql.exec false 1 db (Sql.INSERT_FINGERPRINT 3 "beef" 7) = Ok o /\
    Sql.UNHEX "beef" = Some [Byte.xbe; Byte.xef] /\
    Sql.UNHEX "BEEF" = Some [Byte.xbe; Byte.xef] /\
    Sql.exec false 2 (Sql.out_db o) (Sql.SELECT "BEEF") = Ok o' /\
    [Sql.INTEGER 3; Sql.INTEGER 7] ∈ Sql.rows o'.
Proof.
  intros db.
  destruct (select_finds_inserted false 1 2 db 3 7 "beef" "BEEF"
              [Byte.xbe; Byte.xef] _ eq_refl eq_refl eq_refl)
    as (o' & H1 & H2).
  eexists _, o'. split_and!; [reflexivity|reflexivity|reflexivity|exact H1|exact H2].
Defined.

(** X8: inserting a fingerprint changes the lookup of no other hash. *)
Theorem insert_leaves_other_hashes (foreign_keys : bool) (now : Z)
    (db : Sql.Database) (song_id offset : Z) (hash hash' : string)
    (o : Sql.outcome) :
  Sql.exec foreign_keys now db (Sql.INSERT_FINGERPRINT song_id hash offset)
    = Ok o ->
  Sql.UNHEX hash' <> Sql.UNHEX hash ->
  exists r r',
    Sql.exec_SELECT db hash' = Ok r /\
    Sql.exec_SELECT (Sql.out_db o) hash' = Ok r' /\
    Sql.rows r' = Sql.rows r.
Proof.
  simpl. unfold Sql.exec_INSERT_FINGERPRINT, Sql.exec_SELECT, Sql.selected.
  intros E Hne.
  destruct (Sql.fingerprints db) as [fs|] eqn:Ef; [|done].
  destruct (foreign_keys && bool_decide (Sql.songs db = None)); [done|].
  destruct (Sql.UNHEX hash) as [b|] eqn:Eb;
    [|injection E as <-; simpl; rewrite ?Ef; by eexists _, _].
  destruct (existsb _ fs);
    [injection E as <-; simpl; rewrite ?Ef; by eexists _, _|].
  destruct (foreign_keys && negb _); [done|]. injection E as <-. simpl.
  eexists _, _. split_and!; [done|done|]. simpl.
  destruct (Sql.UNHEX hash') as [b'|]; [|done].
  rewrite filter_app, filter_cons_False, filter_nil, app_nil_r; [done|].
  simpl. congruence.
Qed.

Lemma insert_leaves_other_hashes_witness :
  let db := {| Sql.songs := None; Sql.songs_seq := 0;
               Sql.songs_trigger := false; Sql.fingerprints := Some [] |} in
  exists o r r',
    Sql.exec false 1 db (Sql.INSERT_FINGERPRINT 3 "beef" 7) = Ok o /\
    Sql.UNHEX "cafe" <> Sql.UNHEX "beef" /\
    Sql.exec_SELECT db "cafe" = Ok r /\
    Sql.exec_SELECT (Sql.out_db o) "cafe" = Ok r' /\
    Sql.rows r' = Sql.rows r.
Proof.
  intros db.
  assert (Hne : Sql.UNHEX "cafe" <> Sql.UNHEX "beef") by discriminate.
  destruct (insert_leaves_other_hashes false 1 db 3 7 "beef" "cafe" _
              eq_refl Hne) as (r & r' & H1 & H2 & H3).
  eexists _, r, r'. split_and!; [reflexivity|exact Hne|exact H1|exact H2|exact H3].
Defined.

(** ** Songs: mark, delete, count *)

(** X10: a song that has been marked fingerprinted survives the delete
    of the unfingerprinted songs, with its name, hash and count; and
    after that delete no unmarked song is left. *)
Theorem marked_song_survives_delete (foreign_keys : bool) (now now' : Z)
    (db : Sql.Database) (ss : list Sql.Song.t) (s : Sql.Song.t) :
  Sql.songs db = Some ss -> s ∈ ss ->
  exists o1 o2 s',
    Sql.exec foreign_keys now db
      (Sql.UPDATE_SONG_FINGERPRINTED (Sql.Song.song_id s)) = Ok o1 /\
    Sql.exec foreign_keys now' (Sql.out_db o1) Sql.DELETE_UNFINGERPRINTED
      = Ok o2 /\
    s' ∈ default [] (Sql.songs (Sql.out_db o2)) /\
    Sql.Song.song_id s' = Sql.Song.song_id s /\
    Sql.Song.song_name s' = Sql.Song.song_name s /\
    Sql.Song.file_sha1 s' = Sql.Song.file_sha1 s /\
    Sql.Song.total_hashes s' = Sql.Song.total_hashes s /\
    Sql.Song.fingerprinted s' = 1 /\
    Forall (fun t => Sql.Song.fingerprinted t <> 0)
           (default [] (Sql.songs (Sql.out_db o2))).
Proof.
  intros Hss Hs. simpl.
  unfold Sql.exec_UPDATE_SONG_FINGERPRINTED, Sql.exec_DELETE_UNFINGERPRINTED,
    Sql.done.
  rewrite Hss. eexists _, _, _. split; [reflexivity|]. simpl.
  split; [reflexivity|]. simpl. split_and!.
  - apply list_elem_of_filter. split; [|apply list_elem_of_fmap_2, Hs].
    rewrite bool_decide_eq_true_2 by done. done.
  - by rewrite bool_decide_eq_true_2.
  - by rewrite bool_decide_eq_true_2.
  - by rewrite bool_decide_eq_true_2.
  - by rewrite bool_decide_eq_true_2.
  - by rewrite bool_decide_eq_true_2.
  - apply Forall_forall. intros t Ht. by apply list_elem_of_filter in Ht as [? _].
Qed.

Lemma marked_song_survives_delete_witness :
  let s := {| Sql.Song.song_id := 1; Sql.Song.song_name := "a";
              Sql.Song.fingerprinted := 0; Sql.Song.file_sha1 := [];
              Sql.Song.total_hashes := 3; Sql.Song.date_created := 0;
              Sql.Song.date_modified := 0 |} in
  let db := {| Sql.songs := Some [s]; Sql.songs_seq := 1;
               Sql.songs_trigger := true; Sql.fingerprints := None |} in
  Sql.songs db = Some [s] /\ s ∈ [s] /\
  exists o1 o2 s',
    Sql.exec false 5 db (Sql.UPDATE_SONG_FINGERPRINTED 1) = Ok o1 /\
    Sql.exec false 6 (Sql.out_db o1) Sql.DELETE_UNFINGERPRINTED = Ok o2 /\
    s' ∈ default [] (Sql.songs (Sql.out_db o2)) /\
    Sql.Song.song_id s' = 1 /\ Sql.Song.fingerprinted s' = 1.
Proof.
  intros s db.
  assert (H1 : Sql.songs db = Some [s]) by reflexivity.
  assert (H2 : s ∈ [s]) by apply list_elem_of_here.
  split; [exact H1|]. split; [exact H2|].
  destruct (marked_song_survives_delete false 5 6 db [s] s H1 H2)
    as (o1 & o2 & s' & E1 & E2 & Hin & Hid & _ & _ & _ & Hf & _).
  exists o1, o2, s'. by split_and!.
Defined.

Lemma filter_zero_of_nonzero (ss : list Sql.Song.t) :
  filter (fun s => Sql.Song.fingerprinted s = 0)
    (filter (fun s => Sql.Song.fingerprinted s <> 0) ss) = [].
Proof.
  apply elem_of_nil_inv. intros s.
  rewrite !list_elem_of_filter. tauto.
Qed.

Lemma filter_all {A} (P : A -> Prop) `{!forall x, Decision (P x)} (l : list A) :
  (forall x, x ∈ l -> P x) -> filter P l = l.
Proof.
  induction l as [|x l IH]; intros Hall; [done|].
  rewrite filter_cons_True by (apply Hall; left).
  f_equal. apply IH. intros y Hy. apply Hall. by right.
Qed.

(** X11: deleting the unfingerprinted songs a second time deletes
    nothing more: it leaves the database as the first delete left
    it. *)
Theorem delete_unfingerprinted_twice (foreign_keys : bool) (now now' : Z)
    (db : Sql.Database) (o : Sql.outcome) :
  Sql.exec foreign_keys now db Sql.DELETE_UNFINGERPRINTED = Ok o ->
  Sql.exec foreign_keys now' (Sql.out_db o) Sql.DELETE_UNFINGERPRINTED
    = Sql.done (Sql.out_db o).
Proof.
  simpl. unfold Sql.exec_DELETE_UNFINGERPRINTED, Sql.done.
  destruct (Sql.songs db) as [ss|]; [|done]. intros [= <-]. simpl.
  rewrite filter_zero_of_nonzero. simpl.
  rewrite filter_all
    by (by intros s [? _]%list_elem_of_filter).
  do 3 f_equal.
  destruct (Sql.fingerprints db) as [fs|]; [|done]. simpl. f_equal.
  destruct foreign_keys; [|done].
  apply filter_all. intros f _ Hin. by apply elem_of_nil in Hin.
Qed.

Lemma delete_unfingerprinted_twice_witness :
  let song (id flag : Z) :=
    {| Sql.Song.song_id := id; Sql.Song.song_name := "a";
       Sql.Song.fingerprinted := flag; Sql.Song.file_sha1 := [Byte.xab];
       Sql.Song.total_hashes := 1; Sql.Song.date_created := 0;
       Sql.Song.date_modified := 0 |} in
  let print (rowid id : Z) :=
    {| Sql.Fingerprint.rowid := rowid; Sql.Fingerprint.hash := [Byte.xcd];
       Sql.Fingerprint.song_id := id; Sql.Fingerprint.offset := 7;
       Sql.Fingerprint.date_created := 0;
       Sql.Fingerprint.date_modified := 0 |} in
  let db := {| Sql.songs := Some [song 1 0; song 2 1]; Sql.songs_seq := 2;
               Sql.songs_trigger := false;
               Sql.fingerprints := Some [print 1 1; print 2 2] |} in
  exists o,
    Sql.exec true 1 db Sql.DELETE_UNFINGERPRINTED = Ok o /\
    Sql.songs (Sql.out_db o) = Some [song 2 1] /\
    Sql.fingerprints (Sql.out_db o) = Some [print 2 2] /\
    Sql.exec true 2 (Sql.out_db o) Sql.DELETE_UNFINGERPRINTED
      = Sql.done (Sql.out_db o).
Proof.
  intros song print db. eexists. split; [reflexivity|].
  split; [reflexivity|]. split; [reflexivity|].
  apply (delete_unfingerprinted_twice true 1 2 db). reflexivity.
Defined.

(** X13: the count of fingerprinted songs does not move when a song is
    inserted, and goes up by exactly one when the new song is then
    marked fingerprinted. *)
Theorem count_after_insert_and_mark (foreign_keys : bool) (now now' : Z)
    (db : Sql.Database) (name hash : string) (total : Z) (o : Sql.outcome) :
  Sql.exec foreign_keys now db (Sql.INSERT_SONG name hash total) = Ok o ->
  exists id n o2,
    Sql.inserted o = Some id /\
    exec_SELECT_UNIQUE_SONG_IDS db = Ok n /\
    exec_SELECT_UNIQUE_SONG_IDS (Sql.out_db o) = Ok n /\
    Sql.exec foreign_keys now' (Sql.out_db o)
      (Sql.UPDATE_SONG_FINGERPRINTED id) = Ok o2 /\
    exec_SELECT_UNIQUE_SONG_IDS (Sql.out_db o2) = Ok (n + 1).
Proof.
  simpl. unfold Sql.exec_INSERT_SONG, Sql.exec_UPDATE_SONG_FINGERPRINTED,
    exec_SELECT_UNIQUE_SONG_IDS, Sql.done, Sql.no_such_table.
  destruct (Sql.songs db) as [ss|] eqn:Ess; [|done].
  destruct (Sql.max_int64 <=? _); [done|].
  destruct (Sql.UNHEX hash) as [b|]; [|done]. intros [= <-]. simpl.
  eexists _, _, _. split_and!; [reflexivity|reflexivity| |reflexivity|].
  - rewrite filter_app, filter_cons_False, filter_nil, app_nil_r by done.
    done.
  - simpl. rewrite fmap_app, filter_app. simpl.
    rewrite bool_decide_eq_true_2 by done.
    rewrite filter_cons_True, filter_nil by done.
    rewrite length_app. simpl.
    assert (Hsame :
      (fun s : Sql.Song.t =>
         if bool_decide (Sql.Song.song_id s =
              Z.max (Sql.songs_seq db)
                (Sql.max_rowid (Sql.Song.song_id <$> ss)) + 1)
         then {| Sql.Song.song_id := Sql.Song.song_id s;
                 Sql.Song.song_name := Sql.Song.song_name s;
                 Sql.Song.fingerprinted := 1;
                 Sql.Song.file_sha1 := Sql.Song.file_sha1 s;
                 Sql.Song.total_hashes := Sql.Song.total_hashes s;
                 Sql.Song.date_created := Sql.Song.date_created s;
                 Sql.Song.date_modified :=
                   if Sql.songs_trigger db then now'
                   else Sql.Song.date_modified s |}
         else s) <$> ss = ss).
    { rewrite <- (list_fmap_id ss) at 2. apply list_fmap_ext.
      intros i s Hs. simpl. rewrite bool_decide_eq_false_2; [done|].
      assert (Sql.Song.song_id s <= Sql.max_rowid (Sql.Song.song_id <$> ss)).
      { apply max_rowid_ge, list_elem_of_fmap_2.
        by eapply list_elem_of_lookup_2. }
      lia. }
    rewrite Hsame. f_equal. lia.
Qed.

Lemma count_after_insert_and_mark_witness :
  let db := {| Sql.songs := Some []; Sql.songs_seq := 0;
               Sql.songs_trigger := true; Sql.fingerprints := Some [] |} in
  exists o o2,
    Sql.exec false 1 db (Sql.INSERT_SONG "a" "ab" 1) = Ok o /\
    Sql.inserted o = Some 1 /\
    exec_SELECT_UNIQUE_SONG_IDS db = Ok 0 /\
    exec_SELECT_UNIQUE_SONG_IDS (Sql.out_db o) = Ok 0 /\
    Sql.exec false 2 (Sql.out_db o) (Sql.UPDATE_SONG_FINGERPRINTED 1) = Ok o2 /\
    exec_SELECT_UNIQUE_SONG_IDS (Sql.out_db o2) = Ok 1.
Proof.
  intros db.
  destruct (count_after_insert_and_mark false 1 2 db "a" "ab" 1 _ eq_refl)
    as (id & n & o2 & H1 & H2 & H3 & H4 & H5).
  injection H1 as <-. injection H2 as <-.
  eexists _, o2. by split_and!.
Defined.


(** ** The errors of the statements in a session *)

(** The errors of the catalog statements are [OperationalError] and
    [IntegrityError], never [DatabaseError] itself. *)
Lemma exec_raises_class (foreign_keys : bool) (now : Z) (db : Sql.Database)
    (s : Sql.statement) (e : exn) :
  Sql.exec foreign_keys now db s = Raise e ->
  exn_class e = OperationalError \/ exn_class e = IntegrityError.
Proof.
  destruct s; simpl;
    unfold Sql.exec_INSERT_FINGERPRINT, Sql.exec_INSERT_SONG, Sql.exec_SELECT,
      Sql.exec_SELECT_SONG, Sql.exec_SELECT_NUM_FINGERPRINTS,
      Sql.exec_UPDATE_SONG_FINGERPRINTED, Sql.exec_DELETE_UNFINGERPRINTED,
      Sql.done, Sql.selected, Sql.no_such_table;
    repeat case_match; intros [= <-]; simpl; auto.
Qed.

Lemma exec_error_not_DatabaseError (foreign_keys : bool) (now : Z)
    (db : Sql.Database) (s : Sql.statement) (e : exn) :
  Sql.exec foreign_keys now db s = Raise e ->
  from_option (fun c => is_ c DatabaseError) false (Some (exn_class e)) = false.
Proof.
  intros [H|H]%exec_raises_class; simpl; by rewrite H.
Qed.

(** [cursor.execute] in a session with a value that cannot be bound: the
    transaction has been opened by then. *)
Lemma execute_extended_unbindable (w : World) (Q : Queue.t) (k : Connection)
    (u : SqliteCursor) (o : CursorObj.t) (fs : gmap string Sql.Database)
    (s : Sql.statement) :
  connection u = length (connections w) ->
  cur_closed u = false -> conn_closed k = false ->
  Sql.bindable s = false ->
  let committed := default Sql.empty_database (fs !! database k) in
  Sql.prepare (foreign_keys k) (default committed (in_transaction k)) s
    = None ->
  let begun :=
    if Sql.is_dml s && bool_decide (in_transaction k = None)
    then sqlite3.with_transaction (Some committed) k else k in
  sqlite3.execute (length (cursors w)) s (extended w Q k u o fs) =
    (extended w Q begun u o fs,
     Raise (new_exn OverflowError
              "Python int too large to convert to SQLite INTEGER")).
Proof.
  intros Hu Hcu Hck Hb committed Hp. unfold sqlite3.execute, file_content.
  unfold_M. unfold extended. fresh_objects.
  rewrite Hu. fresh_objects. rewrite Hcu, Hck. cbn [files]. fold committed.
  rewrite Hp. fresh_objects. rewrite Hb. fresh_objects.
  reflexivity.
Qed.

Lemma file_content_insert_same (w : World) (fs : gmap string Sql.Database)
    (path p : string) Q k u o :
  fs = files w ->
  file_content
    (extended w Q k u o (<[path := default Sql.empty_database (fs !! path)]> fs))
    p = file_content w p.
Proof.
  intros ->. unfold file_content, extended. cbn [files].
  destruct (decide (p = path)) as [->|Hne].
  - by rewrite lookup_insert_eq.
  - by rewrite lookup_insert_ne.
Qed.

(** ** [insert_song] *)

Lemma insert_song_session (self : SQLiteDatabase.t) (name h : string)
    (total : Z) :
  SQLiteDatabase.insert_song self name h total =
    session (SQLiteDatabase._options self ∪ ∅) (fun cur =>
      do_ sqlite3.execute cur (Sql.INSERT_SONG name h total);
      sqlite3.lastrowid cur).
Proof. reflexivity. Qed.

Lemma max_rowid_app (l : list Z) (x : Z) :
  Sql.max_rowid (l ++ [x]) = Z.max (Sql.max_rowid l) x.
Proof.
  unfold Sql.max_rowid. induction l as [|y l IH]; simpl; [lia|].
  rewrite IH. lia.
Qed.

(** The statement of [insert_song], run on the session's transaction,
    the songs table being there. *)
Ltac insert_song_steps w path Hsongs :=
  unfold bind at 1;
  rewrite execute_extended by prepared Hsongs;
  cbn [Sql.is_dml fresh_connection in_transaction database foreign_keys
       andb Sql.exec];
  rewrite bool_decide_eq_true_2 by done;
  change (default Sql.empty_database (files w !! path))
    with (file_content w path);
  cbn [sqlite3.with_transaction in_transaction default from_option id].

(** X14: [insert_song] returns the new id, or raises, whichever comes
    first: [OperationalError] when the songs table is missing,
    [OverflowError] for a hash count outside 64 bits,
    [OperationalError] when the ids are used up, [IntegrityError] for a
    hash that is not hexadecimal.  When it raises, no file has
    changed. *)
Theorem insert_song_returns_or_raises (self : SQLiteDatabase.t) (w : World)
    (path name h : string) (total : Z) :
  SQLiteDatabase._options self !! "file"%string = Some path ->
  match insert_song_error (file_content w path) h total with
  | Some c =>
      exists w1 e,
        SQLiteDatabase.insert_song self name h total w = (w1, Raise e) /\
        exn_class e = c /\
        (forall p, file_content w1 p = file_content w p)
  | None =>
      exists w1 id,
        SQLiteDatabase.insert_song self name h total w = (w1, Ok (Some id)) /\
        Sql.songs_seq (file_content w path) < id /\
        Sql.songs_seq (file_content w1 path) = id
  end.
Proof.
  intros Hfile. unfold insert_song_error.
  rewrite insert_song_session.
  rewrite (session_spec _ path) by (by rewrite (right_id_L ∅ (∪))).
  destruct (Sql.songs (file_content w path)) as [ss|] eqn:Hsongs.
  - rewrite bool_decide_eq_false_2 by done.
    destruct (Sql.int64 total) eqn:Htot; cbn [negb].
    + cbn [default from_option id].
      destruct (Sql.max_int64 <=? _) eqn:Hmax.
      * insert_song_steps w path Hsongs.
        unfold Sql.exec_INSERT_SONG. rewrite Hsongs, Hmax.
        rewrite exit_extended by done.
        eexists _, _. split_and!; [reflexivity|reflexivity|].
        intros p. by apply file_content_insert_same.
      * destruct (Sql.UNHEX h) as [b|] eqn:Hb.
        -- rewrite bool_decide_eq_false_2 by done.
           insert_song_steps w path Hsongs.
           unfold Sql.exec_INSERT_SONG. rewrite Hsongs, Hmax, Hb.
           rewrite lastrowid_extended. rewrite exit_extended by done.
           eexists _, _. split; [reflexivity|].
           apply Z.leb_gt in Hmax. split.
           ++ cbn [default from_option id Sql.inserted]. lia.
           ++ unfold file_content, extended.
              cbn [files in_transaction database sqlite3.with_transaction].
              rewrite lookup_insert_eq. reflexivity.
        -- rewrite bool_decide_eq_true_2 by done.
           insert_song_steps w path Hsongs.
           unfold Sql.exec_INSERT_SONG. rewrite Hsongs, Hmax, Hb.
           rewrite exit_extended by done.
           eexists _, _. split_and!; [reflexivity|reflexivity|].
           intros p. by apply file_content_insert_same.
    + unfold bind at 1.
      rewrite execute_extended_unbindable by prepared Hsongs.
      cbn [Sql.is_dml fresh_connection in_transaction database andb].
      rewrite (bool_decide_eq_true_2 (@None Sql.Database = None)) by done.
      rewrite exit_extended by done.
      eexists _, _. split_and!; [reflexivity|reflexivity|].
      intros p. by apply file_content_insert_same.
  - rewrite bool_decide_eq_true_2 by done.
    unfold bind at 1.
    rewrite (execute_extended_unprepared _ _ _ _ _ _ _
               (new_exn OperationalError "no such table"))
      by prepared Hsongs.
    rewrite exit_extended by done.
    eexists _, _. split_and!; [reflexivity|reflexivity|done].
Qed.

Lemma insert_song_returns_or_raises_witness :
  (exists w1 e,
     SQLiteDatabase.insert_song Example.db "a" "zz" 1 Example.ready
       = (w1, Raise e) /\
     exn_class e = IntegrityError /\
     file_content w1 Example.path = file_content Example.ready Example.path) /\
  (exists w1 e,
     SQLiteDatabase.insert_song Example.db "a" "zz" (2 ^ 63) (boot ∅ 1000)
       = (w1, Raise e) /\
     exn_class e = OperationalError).
Proof.
  split.
  - pose proof (insert_song_returns_or_raises Example.db Example.ready
                  Example.path "a" "zz" 1 eq_refl) as H.
    assert (E : insert_song_error (file_content Example.ready Example.path)
                  "zz" 1 = Some IntegrityError) by reflexivity.
    rewrite E in H. destruct H as (w1 & e & H1 & H2 & H3).
    exists w1, e. split_and!; [exact H1|exact H2|apply H3].
  - pose proof (insert_song_returns_or_raises Example.db (boot ∅ 1000)
                  Example.path "a" "zz" (2 ^ 63) eq_refl) as H.
    assert (E : insert_song_error (file_content (boot ∅ 1000) Example.path)
                  "zz" (2 ^ 63) = Some OperationalError) by reflexivity.
    rewrite E in H. destruct H as (w1 & e & H1 & H2 & _).
    exists w1, e. split; [exact H1|exact H2].
Defined.

(** X15: two calls of [insert_song] in a row return consecutive ids. *)
Theorem insert_song_consecutive_ids (self : SQLiteDatabase.t) (w : World)
    (path : string) (ss : list Sql.Song.t) (name1 h1 name2 h2 : string)
    (b1 b2 : Sql.blob) (total1 total2 : Z) :
  SQLiteDatabase._options self !! "file"%string = Some path ->
  Sql.songs (file_content w path) = Some ss ->
  Sql.UNHEX h1 = Some b1 -> Sql.UNHEX h2 = Some b2 ->
  Sql.int64 total1 = true -> Sql.int64 total2 = true ->
  Z.max (Sql.songs_seq (file_content w path))
        (Sql.max_rowid (Sql.Song.song_id <$> ss)) < Sql.max_int64 - 1 ->
  exists w1 w2 id,
    SQLiteDatabase.insert_song self name1 h1 total1 w = (w1, Ok (Some id)) /\
    SQLiteDatabase.insert_song self name2 h2 total2 w1
      = (w2, Ok (Some (id + 1))) /\
    exists s1 s2,
      Sql.songs (file_content w2 path) = Some (ss ++ [s1; s2]) /\
      Sql.Song.song_id s1 = id /\ Sql.Song.song_name s1 = name1 /\
      Sql.Song.song_id s2 = id + 1 /\ Sql.Song.song_name s2 = name2.
Proof.
  intros Hfile Hsongs Hb1 Hb2 Ht1 Ht2 Hmax.
  destruct (insert_song_spec self w path ss name1 h1 b1 total1)
    as (w1 & Hrun1 & Hfc1 & Hclock1); [done..|lia|].
  set (row1 := inserted_song (clock w) (file_content w path) ss name1 b1 total1)
    in *.
  assert (Hsongs1 : Sql.songs (file_content w1 path) = Some (ss ++ [row1]))
    by (by rewrite Hfc1).
  assert (Hlast :
    Z.max (Sql.songs_seq (file_content w1 path))
          (Sql.max_rowid (Sql.Song.song_id <$> ss ++ [row1]))
      = Sql.Song.song_id row1).
  { rewrite Hfc1, fmap_app. cbn [fmap list_fmap]. rewrite max_rowid_app.
    simpl. lia. }
  destruct (insert_song_spec self w1 path (ss ++ [row1]) name2 h2 b2 total2)
    as (w2 & Hrun2 & Hfc2 & _); [done..| |].
  { rewrite Hlast. simpl. lia. }
  exists w1, w2, (Sql.Song.song_id row1). split_and!; [exact Hrun1| |].
  - rewrite Hrun2. do 3 f_equal. unfold inserted_song at 1.
    cbn [Sql.Song.song_id]. by rewrite Hlast.
  - eexists row1, _. split_and!.
    + rewrite Hfc2. unfold with_song. cbn [Sql.songs].
      by rewrite <- (assoc_L (++)).
    + reflexivity.
    + reflexivity.
    + unfold inserted_song at 1. cbn [Sql.Song.song_id]. by rewrite Hlast.
    + reflexivity.
Qed.

Lemma insert_song_consecutive_ids_witness :
  exists w1 w2 id,
    SQLiteDatabase.insert_song Example.db "a" "ab" 1 Example.ready
      = (w1, Ok (Some id)) /\
    SQLiteDatabase.insert_song Example.db "b" "cd" 2 w1
      = (w2, Ok (Some (id + 1))).
Proof.
  destruct (insert_song_consecutive_ids Example.db Example.ready Example.path
              [] "a" "ab" "b" "cd" _ _ 1 2
              eq_refl eq_refl eq_refl eq_refl eq_refl eq_refl eq_refl)
    as (w1 & w2 & id & H1 & H2 & _).
  exists w1, w2, id. split; assumption.
Defined.

(** ** [cursor_factory] *)




(** ** [dict_factory] *)

Lemma foldl_insert_other {K V} `{Countable K} (l : list (K * V))
    (d : gmap K V) (c : K) :
  (forall y, y ∈ l -> y.1 <> c) ->
  foldl (fun d cv => <[cv.1 := cv.2]> d) d l !! c = d !! c.
Proof.
  revert d. induction l as [|x l IH]; intros d Hl; [done|].
  simpl. rewrite IH.
  - apply lookup_insert_ne, Hl. left.
  - intros y Hy. apply Hl. by right.
Qed.

Lemma foldl_insert_last {K V} `{Countable K} (l : list (K * V))
    (d : gmap K V) (i : nat) (c : K) (v : V) :
  l !! i = Some (c, v) ->
  (forall j y, (i < j)%nat -> l !! j = Some y -> y.1 <> c) ->
  foldl (fun d cv => <[cv.1 := cv.2]> d) d l !! c = Some v.
Proof.
  revert d i. induction l as [|x l IH]; intros d i Hi Hlast; [done|].
  destruct i as [|i]; simpl in *.
  - injection Hi as ->. rewrite foldl_insert_other.
    + apply lookup_insert_eq.
    + intros y [j Hj]%list_elem_of_lookup_1.
      apply (Hlast (S j)); [lia|done].
  - apply (IH _ i); [done|].
    intros j y Hj Hy. apply (Hlast (S j)); [lia|done].
Qed.

(** X17: the dict that [dict_factory] makes of a row has, under a
    column name, the value at the last position of that name in the
    description, and nothing under a name that is not in the
    description. *)
Theorem dict_factory_lookup (u : SqliteCursor) (r : list Sql.value) :
  length r = length (cur_description u) ->
  (forall i c v,
     cur_description u !! i = Some c -> r !! i = Some v ->
     (forall j, (i < j)%nat -> cur_description u !! j <> Some c) ->
     dict_factory u r !! c = Some v) /\
  (forall c, c ∉ cur_description u -> dict_factory u r !! c = None).
Proof.
  intros Hlen. unfold dict_factory. split.
  - intros i c v Hc Hv Hlast. apply (foldl_insert_last _ _ i).
    + rewrite lookup_zip_with, Hc, Hv. reflexivity.
    + intros j [c' v'] Hj Hy Hcc. simpl in Hcc. subst c'.
      rewrite lookup_zip_with in Hy.
      destruct (cur_description u !! j) as [c'|] eqn:Ej; [|done].
      simpl in Hy. destruct (r !! j); [|done]. injection Hy as -> _.
      by apply (Hlast j).
  - intros c Hc. rewrite foldl_insert_other; [done|].
    intros [c' v'] Hy Hcc. simpl in Hcc. subst c'.
    apply list_elem_of_lookup_1 in Hy as [j Hj].
    rewrite lookup_zip_with in Hj.
    destruct (cur_description u !! j) as [c'|] eqn:Ej; [|done].
    simpl in Hj. destruct (r !! j); [|done]. injection Hj as -> _.
    apply Hc. by eapply list_elem_of_lookup_2.
Qed.

Lemma dict_factory_lookup_witness :
  let u := {| connection := 0; cur_closed := false; cur_row_factory := true;
              cur_description := [Sql.FIELD_SONG_ID; Sql.FIELD_OFFSET;
                                  Sql.FIELD_SONG_ID];
              cur_rows := []; cur_lastrowid := None |} in
  let r := [Sql.INTEGER 1; Sql.INTEGER 2; Sql.INTEGER 3] in
  dict_factory u r !! Sql.FIELD_SONG_ID = Some (Sql.INTEGER 3) /\
  dict_factory u r !! Sql.FIELD_OFFSET = Some (Sql.INTEGER 2) /\
  dict_factory u r !! Sql.FIELD_HASH = None.
Proof.
  intros u r.
  destruct (dict_factory_lookup u r eq_refl) as [Hin Hout].
  split_and!.
  - apply (Hin 2%nat); [reflexivity|reflexivity|].
    intros j Hj. destruct j as [|[|[|j]]]; [lia|lia|lia|discriminate].
  - apply (Hin 1%nat); [reflexivity|reflexivity|].
    intros j Hj. destruct j as [|[|[|j]]]; [lia|lia|discriminate|discriminate].
  - apply Hout. intros Hc. repeat (apply elem_of_cons in Hc as [Hc|Hc];
      [discriminate|]). by apply elem_of_nil in Hc.
Defined.


(** ** Sessions with [dictionary=True] *)

Lemma enter_constructed_dict (w : World) (path : string) :
  Cursor.__enter__ (length (instances w)) (constructed true path w) =
    (extended w (Queue.Queue 5) (dict_connection path) (dict_cursor w)
       (dict_instance w) (files w),
     Ok (length (cursors w))).
Proof.
  unfold Cursor.__enter__, Cursor.update_instance, sqlite3.Connection_cursor,
    sqlite3.set_row_factory, sqlite3.update_connection.
  unfold_M. unfold constructed. fresh_objects. reflexivity.
Qed.

(** [__exit__] of any instance of the session, without the rollback
    branch, the queue having room. *)
Lemma exit_extended_instance (w : World) Q k u o fs extype :
  CursorObj._cache o = length (queues w) ->
  CursorObj.conn o = length (connections w) ->
  CursorObj.cursor o = Some (length (cursors w)) ->
  connection u = length (connections w) -> conn_closed k = false ->
  from_option (fun c => is_ c DatabaseError) false extype = false ->
  Queue.qsize Q < Queue.maxsize Q ->
  Cursor.__exit__ (length (instances w)) extype (extended w Q k u o fs) =
    (extended w
       {| Queue.maxsize := Queue.maxsize Q;
          Queue.queue := Queue.queue Q ++ [length (connections w)] |}
       (sqlite3.with_transaction None k)
       {| connection := connection u; cur_closed := true;
          cur_row_factory := cur_row_factory u;
          cur_description := cur_description u; cur_rows := cur_rows u;
          cur_lastrowid := cur_lastrowid u |}
       o
       match in_transaction k with
       | Some db => <[database k := db]> fs
       | None => fs
       end,
     Ok tt).
Proof.
  intros Hq Hc Hcur Hu Hck Hex HQ.
  unfold Cursor.__exit__, Cursor.getattr_cursor, Cursor.release,
    sqlite3.Cursor_close, sqlite3.commit, sqlite3.update_cursor,
    sqlite3.update_connection, put_nowait.
  unfold_M. unfold extended. fresh_objects. rewrite Hex. fresh_objects.
  rewrite Hcur. fresh_objects. rewrite Hu. fresh_objects.
  rewrite Hck. fresh_objects. rewrite Hc. fresh_objects. rewrite Hck.
  destruct (in_transaction k) eqn:Et; fresh_objects;
    rewrite ?Hq; fresh_objects;
    rewrite put_nowait_spare by done; fresh_objects; try reflexivity.
  destruct k; simpl in *; by subst.
Qed.

Lemma session_with_dictionary {A} (options : gmap string string)
    (path : string) (body : nat -> M World A) (w : World) :
  options !! "file"%string = Some path ->
  session_with true options body w =
    match body (length (cursors w))
            (extended w (Queue.Queue 5) (dict_connection path)
               (dict_cursor w) (dict_instance w) (files w)) with
    | (w1, Ok a) =>
        match Cursor.__exit__ (length (instances w)) None w1 with
        | (w2, Ok _) => (w2, Ok a)
        | (w2, Raise e') => (w2, Raise e')
        end
    | (w1, Raise e) =>
        match Cursor.__exit__ (length (instances w)) (Some (exn_class e)) w1 with
        | (w2, Ok _) => (w2, Raise e)
        | (w2, Raise e') => (w2, Raise (with_context e' e))
        end
    end.
Proof.
  intros Hfile. unfold session_with. unfold bind at 1.
  rewrite Cursor_init_spec, Hfile. unfold Cursor.with_, bind.
  by rewrite enter_constructed_dict.
Qed.

(** X18: in a session with [dictionary=True] the row fetched after
    [SELECT_SONG] is a dict: the name under the song-name column, the
    hash in hexadecimal under the hash column, the number of hashes
    under its column; no row when no song has the id. *)
Theorem dictionary_session_fetches_dict (options : gmap string string)
    (path : string) (w : World) (ss : list Sql.Song.t) (song_id : Z) :
  options !! "file"%string = Some path ->
  Sql.songs (file_content w path) = Some ss ->
  Sql.int64 song_id = true ->
  exists w1,
    session_with true options (fun cur =>
        do_ sqlite3.execute cur (Sql.SELECT_SONG song_id);
        sqlite3.fetchone cur) w
      = (w1, Ok (head ((fun s => Dict (song_dict s))
                         <$> filter (fun s => Sql.Song.song_id s = song_id) ss)))
    /\ forall p, file_content w1 p = file_content w p.
Proof.
  intros Hfile Hsongs Hid.
  rewrite (session_with_dictionary _ path) by done.
  unfold bind at 1.
  rewrite execute_extended by prepared Hsongs.
  cbn [Sql.is_dml dict_connection in_transaction database foreign_keys
       andb Sql.exec default from_option id].
  change (default Sql.empty_database (files w !! path))
    with (file_content w path).
  unfold Sql.exec_SELECT_SONG, Sql.selected. rewrite Hsongs.
  cbn [Sql.rows Sql.description Sql.inserted Sql.out_db].
  rewrite fetchone_extended by done. cbn [cur_rows].
  destruct (filter _ ss) as [|s rest]; cbn [fmap list_fmap head].
  - rewrite exit_extended_instance by done. eexists. split; [reflexivity|].
    intros p. cbn [in_transaction]. unfold file_content, extended.
    cbn [files]. destruct (decide (p = path)) as [->|Hne].
    + rewrite lookup_insert_eq. unfold file_content. reflexivity.
    + by rewrite lookup_insert_ne.
  - rewrite exit_extended_instance by done. eexists. split; [reflexivity|].
    intros p. cbn [in_transaction]. unfold file_content, extended.
    cbn [files]. destruct (decide (p = path)) as [->|Hne].
    + rewrite lookup_insert_eq. unfold file_content. reflexivity.
    + by rewrite lookup_insert_ne.
Qed.


Lemma dictionary_session_fetches_dict_witness :
  let song := {| Sql.Song.song_id := 1; Sql.Song.song_name := "a";
                 Sql.Song.fingerprinted := 1; Sql.Song.file_sha1 := [Byte.xab];
                 Sql.Song.total_hashes := 3; Sql.Song.date_created := 0;
                 Sql.Song.date_modified := 0 |} in
  let db := {| Sql.songs := Some [song]; Sql.songs_seq := 1;
               Sql.songs_trigger := false; Sql.fingerprints := None |} in
  let w := boot {[ Example.path := db ]} 0 in
  exists w1,
    session_with true Example.options (fun cur =>
        do_ sqlite3.execute cur (Sql.SELECT_SONG 1);
        sqlite3.fetchone cur) w
      = (w1, Ok (Some (Dict (song_dict song)))).
Proof.
  intros song db w.
  destruct (dictionary_session_fetches_dict Example.options Example.path w
              [song] 1 eq_refl eq_refl eq_refl) as (w1 & H1 & _).
  exists w1. exact H1.
Defined.

(** ** One [Cursor] object entered again and again *)

Lemma enter_extended (w : World) Q k u fs :
  conn_closed k = false -> row_factory k = false ->
  let w' := set_cursors (fun l => l ++ [u]) w in
  Cursor.__enter__ (length (instances w))
      (extended w Q k u (entered_instance w) fs) =
    (extended w' Q k (fresh_cursor w') (entered_instance w') fs,
     Ok (length (cursors w'))).
Proof.
  intros Hck Hrf.
  unfold Cursor.__enter__, Cursor.update_instance, sqlite3.Connection_cursor.
  unfold_M. unfold extended. fresh_objects. rewrite Hck. fresh_objects.
  rewrite Hrf. reflexivity.
Qed.

Lemma enter_extended_closed (w : World) Q k u fs :
  conn_closed k = true ->
  Cursor.__enter__ (length (instances w))
      (extended w Q k u (entered_instance w) fs) =
    (extended w Q k u (entered_instance w) fs,
     Raise (new_exn ProgrammingError "Cannot operate on a closed database.")).
Proof.
  intros Hck.
  unfold Cursor.__enter__, Cursor.update_instance, sqlite3.Connection_cursor,
    sqlite3.closed_database.
  unfold_M. unfold extended. fresh_objects. rewrite Hck. reflexivity.
Qed.

(** [__exit__] when the queue of the instance is full: the connection
    is closed instead of being put back. *)
Lemma exit_extended_full (w : World) Q k u fs extype :
  connection u = length (connections w) -> conn_closed k = false ->
  from_option (fun c => is_ c DatabaseError) false extype = false ->
  0 < Queue.maxsize Q -> Queue.maxsize Q <= Queue.qsize Q ->
  Cursor.__exit__ (length (instances w)) extype
      (extended w Q k u (entered_instance w) fs) =
    (extended w Q
       {| database := database k; conn_closed := true;
          in_transaction := None; foreign_keys := foreign_keys k;
          row_factory := row_factory k;
          last_insert_rowid := last_insert_rowid k |}
       {| connection := connection u; cur_closed := true;
          cur_row_factory := cur_row_factory u;
          cur_description := cur_description u; cur_rows := cur_rows u;
          cur_lastrowid := cur_lastrowid u |}
       (entered_instance w)
       match in_transaction k with
       | Some db => <[database k := db]> fs
       | None => fs
       end,
     Ok tt).
Proof.
  intros Hu Hck Hex Hm HQ.
  unfold Cursor.__exit__, Cursor.getattr_cursor, Cursor.release,
    sqlite3.Cursor_close, sqlite3.commit, sqlite3.close,
    sqlite3.update_cursor, sqlite3.update_connection, put_nowait.
  unfold_M. unfold extended. fresh_objects. rewrite Hex. fresh_objects.
  rewrite Hu. fresh_objects. rewrite Hck. fresh_objects.
  rewrite Hck.
  destruct (in_transaction k) eqn:Et; fresh_objects;
    rewrite put_nowait_full by done; fresh_objects; reflexivity.
Qed.

(** One more [with self: pass] while the queue has room. *)
Lemma with_pass_again (w : World) Q u fs path :
  Queue.qsize Q < Queue.maxsize Q ->
  let w' := set_cursors (fun l => l ++ [u]) w in
  Cursor.with_ (length (instances w)) (fun _ => ret tt)
      (extended w Q (fresh_connection path) u (entered_instance w) fs) =
    (extended w'
       {| Queue.maxsize := Queue.maxsize Q;
          Queue.queue := Queue.queue Q ++ [length (connections w)] |}
       (fresh_connection path) (spent_cursor w') (entered_instance w') fs,
     Ok tt).
Proof.
  intros HQ w'. unfold Cursor.with_. unfold bind at 1.
  rewrite enter_extended by done. fold w'. unfold ret at 1.
  change (length (instances w)) with (length (instances w')).
  rewrite exit_extended by done. reflexivity.
Qed.

Lemma with_times_extended (n : nat) (path : string) :
  forall (w : World) Q u fs,
    Queue.maxsize Q = 5 -> Queue.qsize Q + Z.of_nat n <= 5 ->
    exists w' u',
      with_times (length (instances w)) n
          (extended w Q (fresh_connection path) u (entered_instance w) fs) =
        (extended w'
           {| Queue.maxsize := 5;
              Queue.queue :=
                Queue.queue Q ++ replicate n (length (connections w)) |}
           (fresh_connection path) u' (entered_instance w') fs,
         Ok tt) /\
      queues w' = queues w /\ connections w' = connections w /\
      instances w' = instances w.
Proof.
  induction n as [|n IH]; intros w Q u fs Hm Hs.
  - exists w, u. simpl. unfold ret. rewrite app_nil_r.
    destruct Q as [m q]. simpl in Hm. subst m. by split_and!.
  - cbn [with_times]. unfold bind at 1.
    rewrite with_pass_again by lia.
    set (w1 := set_cursors (fun l => l ++ [u]) w).
    destruct (IH w1 {| Queue.maxsize := Queue.maxsize Q;
                       Queue.queue := Queue.queue Q ++ [length (connections w)] |}
                (spent_cursor w1) fs) as (w' & u' & Hrun & Hq & Hc & Hi).
    { done. }
    { unfold Queue.qsize in *. cbn [Queue.queue]. rewrite length_app.
      simpl. lia. }
    exists w', u'.
    change (length (instances w1)) with (length (instances w)) in Hrun.
    rewrite Hrun. split_and!; [|done|done|done].
    do 3 f_equal. cbn [Queue.queue]. rewrite <- (assoc_L (++)). reflexivity.
Qed.

(** X19: a [Cursor] object can be entered six times and no more.  Each
    [__exit__] puts the one connection on the queue of the instance once
    more; after five the queue is full, the sixth [__exit__] closes the
    connection, and from then on [__enter__] fails with
    [ProgrammingError]. *)
Theorem Cursor_object_wears_out {A} (options : gmap string string)
    (path : string) (body : nat -> M World A) (w : World) :
  options !! "file"%string = Some path ->
  let self := length (instances w) in
  let conn := length (connections w) in
  exists w0 w5 w6 k e,
    Cursor.__init__ false options w = (w0, Ok self) /\
    with_times self 5 w0 = (w5, Ok tt) /\
    queues w5 !! length (queues w)
      = Some {| Queue.maxsize := 5; Queue.queue := replicate 5 conn |} /\
    Cursor.with_ self (fun _ => ret tt) w5 = (w6, Ok tt) /\
    connections w6 !! conn = Some k /\ conn_closed k = true /\
    Cursor.with_ self body w6 = (w6, Raise e) /\
    exn_class e = ProgrammingError.
Proof.
  intros Hfile self conn. subst self conn.
  rewrite Cursor_init_spec, Hfile.
  assert (Hfirst :
    Cursor.with_ (length (instances w)) (fun _ => ret tt)
        (constructed false path w) =
      (extended w {| Queue.maxsize := 5;
                     Queue.queue := [length (connections w)] |}
         (fresh_connection path) (spent_cursor w) (entered_instance w)
         (files w), Ok tt)).
  { unfold Cursor.with_. unfold bind at 1. rewrite enter_constructed.
    unfold ret at 1. rewrite exit_extended by done. reflexivity. }
  destruct (with_times_extended 4 path w
              {| Queue.maxsize := 5; Queue.queue := [length (connections w)] |}
              (spent_cursor w) (files w))
    as (w' & u' & Hrun & Hq & Hc & Hi); [done|done|].
  cbn [Queue.queue replicate app] in Hrun.
  eexists _, _, _, _, _. split_and!.
  - reflexivity.
  - cbn [with_times]. unfold bind at 1. rewrite Hfirst.
    cbn [with_times] in Hrun. exact Hrun.
  - unfold extended. cbn [queues]. rewrite Hq. apply lookup_snoc.
  - unfold Cursor.with_. unfold bind at 1.
    rewrite <- Hi. rewrite enter_extended by done.
    unfold ret at 1.
    change (length (instances w'))
      with (length (instances (set_cursors (fun l => l ++ [u']) w'))).
    rewrite exit_extended_full by done. reflexivity.
  - unfold extended. cbn [connections]. rewrite <- Hc. apply lookup_snoc.
  - reflexivity.
  - unfold Cursor.with_. unfold bind at 1.
    rewrite <- Hi.
    change (length (instances w'))
      with (length (instances (set_cursors (fun l => l ++ [u']) w'))).
    rewrite enter_extended_closed by done. reflexivity.
  - reflexivity.
Qed.

Lemma Cursor_object_wears_out_witness :
  exists w0 w5 w6 e,
    Cursor.__init__ false Example.options (boot ∅ 0) = (w0, Ok 0%nat) /\
    with_times 0 5 w0 = (w5, Ok tt) /\
    Cursor.with_ 0 (fun _ => ret tt) w5 = (w6, Ok tt) /\
    Cursor.with_ 0 (fun cur => sqlite3.execute cur Sql.CREATE_SONGS_TABLE) w6
      = (w6, Raise e) /\
    exn_class e = ProgrammingError.
Proof.
  destruct (Cursor_object_wears_out Example.options Example.path
              (fun cur => sqlite3.execute cur Sql.CREATE_SONGS_TABLE)
              (boot ∅ 0) eq_refl)
    as (w0 & w5 & w6 & k & e & H1 & H2 & _ & H4 & _ & _ & H7 & H8).
  exists w0, w5, w6, e. repeat split; assumption.
Defined.


(** ** Sessions of several statements *)

Lemma run_until_error_class (foreign_keys : bool) (now : Z)
    (l : list Sql.statement) :
  forall (db : Sql.Database) (e : exn),
    (run_until_error foreign_keys now db l).2 = Some e ->
    from_option (fun c => is_ c DatabaseError) false (Some (exn_class e))
      = false.
Proof.
  induction l as [|s l IH]; intros db e; simpl; [done|].
  destruct (Sql.exec foreign_keys now db s) as [o|e'] eqn:E.
  - apply IH.
  - simpl. intros [= <-]. by eapply exec_error_not_DatabaseError.
Qed.

Lemma execute_all_extended (l : list Sql.statement) :
  forall (w : World) Q k u o fs,
    connection u = length (connections w) ->
    cur_closed u = false -> conn_closed k = false ->
    Forall (fun s => Sql.bindable s = true) l ->
    let res := run_until_error (foreign_keys k) (clock w) (view k fs) l in
    exists k' u' fs',
      execute_all (length (cursors w)) l (extended w Q k u o fs) =
        (extended w Q k' u' o fs', result_of res.2) /\
      view k' fs' = res.1 /\
      database k' = database k /\ conn_closed k' = false /\
      connection u' = length (connections w) /\
      (forall p, p <> database k -> fs' !! p = fs !! p).
Proof.
  induction l as [|s l IH]; intros w Q k u o fs Hu Hcu Hck Hb.
  - exists k, u, fs. by split_and!.
  - apply Forall_cons in Hb as [Hs Hl]. cbn [execute_all run_until_error].
    unfold bind at 1.
    destruct (Sql.prepare (foreign_keys k) (view k fs) s) as [e|] eqn:Ep.
    { rewrite (execute_extended_unprepared _ _ _ _ _ _ _ e) by done.
      rewrite (prepare_exec_Raise _ (clock w) _ _ _ Ep).
      exists k, u, fs. by split_and!. }
    rewrite execute_extended by done. cbv zeta.
    set (committed := default Sql.empty_database (fs !! database k)).
    set (begun := if Sql.is_dml s && bool_decide (in_transaction k = None)
                  then sqlite3.with_transaction (Some committed) k else k).
    assert (Hview : default committed (in_transaction begun) = view k fs).
    { unfold begun, view. fold committed.
      destruct (Sql.is_dml s); destruct (in_transaction k) eqn:Et; simpl;
        rewrite ?Et; done. }
    rewrite Hview.
    destruct (Sql.exec (foreign_keys k) (clock w) (view k fs) s)
      as [out|e] eqn:E.
    + set (k1 := {| database := database k; conn_closed := false;
                    in_transaction := match in_transaction begun with
                                      | Some _ => Some (Sql.out_db out)
                                      | None => None
                                      end;
                    foreign_keys := foreign_keys k;
                    row_factory := row_factory k;
                    last_insert_rowid :=
                      default (last_insert_rowid k) (Sql.inserted out) |}).
      set (u1 := {| connection := connection u; cur_closed := false;
                    cur_row_factory := cur_row_factory u;
                    cur_description := Sql.description out;
                    cur_rows := Sql.rows out;
                    cur_lastrowid := _ |}).
      set (fs1 := match in_transaction begun with
                  | Some _ => fs
                  | None => <[database k := Sql.out_db out]> fs
                  end).
      assert (Hview1 : view k1 fs1 = Sql.out_db out).
      { unfold view, k1, fs1. cbn [in_transaction database].
        destruct (in_transaction begun); [done|].
        by rewrite lookup_insert_eq. }
      destruct (IH w Q k1 u1 o fs1) as (k' & u' & fs' & Hrun & Hv & Hd & Hc & Hcu' & Hfs);
        [done..|].
      exists k', u', fs'. rewrite Hrun.
      change (foreign_keys k1) with (foreign_keys k). rewrite Hview1.
      split_and!; [done|by rewrite Hv, Hview1|done|done|done|].
      intros p Hp. rewrite Hfs by done. unfold fs1.
      destruct (in_transaction begun); [done|]. by rewrite lookup_insert_ne.
    + assert (Hdb : database begun = database k)
        by (unfold begun; by destruct (Sql.is_dml s && _)).
      exists begun, u, fs. cbn [fst snd result_of]. split_and!.
      * done.
      * unfold view at 1. rewrite Hdb. exact Hview.
      * done.
      * unfold begun. by destruct (Sql.is_dml s && _).
      * done.
      * done.
Qed.

(** The store after a session of statements. *)
Lemma session_execute_all (options : gmap string string)
    (path : string) (l : list Sql.statement) (w : World) :
  options !! "file"%string = Some path ->
  Forall (fun s => Sql.bindable s = true) l ->
  let res := run_until_error false (clock w) (file_content w path) l in
  exists k u fs,
    session options (fun cur => execute_all cur l) w
      = (extended w
           {| Queue.maxsize := 5; Queue.queue := [length (connections w)] |}
           k u (entered_instance w) fs,
         result_of res.2) /\
    conn_closed k = false /\ in_transaction k = None /\
    connection u = length (connections w) /\ cur_closed u = true /\
    forall p, default Sql.empty_database (fs !! p)
              = if decide (p = path) then res.1 else file_content w p.
Proof.
  intros Hfile Hb res.
  rewrite (session_spec _ path) by done.
  destruct (execute_all_extended l w (Queue.Queue 5) (fresh_connection path)
              (fresh_cursor w) (entered_instance w) (files w))
    as (k' & u' & fs' & Hrun & Hv & Hd & Hc & Hcu & Hfs); [done..|].
  cbn [fresh_connection foreign_keys database] in Hrun, Hv, Hd, Hfs.
  change (view (fresh_connection path) (files w)) with (file_content w path)
    in Hrun, Hv.
  fold res in Hrun, Hv. rewrite Hrun.
  assert (Hcontent : forall p,
    default Sql.empty_database
      (match in_transaction k' with
       | Some db => <[database k' := db]> fs'
       | None => fs'
       end !! p) = if decide (p = path) then res.1 else file_content w p).
  { intros p. rewrite <- Hv. unfold view, file_content. rewrite Hd.
    destruct (decide (p = path)) as [->|Hne].
    - destruct (in_transaction k'); [by rewrite lookup_insert_eq|done].
    - destruct (in_transaction k');
        [rewrite lookup_insert_ne by done|]; by rewrite Hfs. }
  destruct (res.2) as [e|] eqn:Herr; cbn [result_of].
  - pose proof (run_until_error_class _ _ _ _ _ Herr) as Hcls.
    rewrite exit_extended by done.
    eexists _, _, _. split; [reflexivity|]. by split_and!.
  - rewrite exit_extended by done.
    eexists _, _, _. split; [reflexivity|]. by split_and!.
Qed.




Lemma execute_extended_closed_cursor (w : World) Q k u o fs s :
  connection u = length (connections w) -> cur_closed u = true ->
  sqlite3.execute (length (cursors w)) s (extended w Q k u o fs) =
    (extended w Q k u o fs,
     Raise (new_exn ProgrammingError "Cannot operate on a closed cursor.")).
Proof.
  intros Hu Hcu. unfold sqlite3.execute, sqlite3.closed_cursor.
  unfold_M. unfold extended. fresh_objects. rewrite Hu. fresh_objects.
  rewrite Hcu. reflexivity.
Qed.

(** X21: the cursor of a session is closed when the session is over,
    whether its statements succeeded or not: a statement executed on it
    afterwards raises [ProgrammingError] and changes nothing. *)
Theorem cursor_closed_after_session (options : gmap string string)
    (path : string) (l : list Sql.statement) (s : Sql.statement) (w : World) :
  options !! "file"%string = Some path ->
  Forall (fun s => Sql.bindable s = true) l ->
  exists w1 e,
    (session options (fun cur => execute_all cur l) w).1 = w1 /\
    sqlite3.execute (length (cursors w)) s w1 = (w1, Raise e) /\
    exn_class e = ProgrammingError.
Proof.
  intros Hfile Hb.
  destruct (session_execute_all options path l w Hfile Hb)
    as (k & u & fs & Hrun & _ & _ & Hu & Hcu & _).
  rewrite Hrun. cbn [fst].
  eexists _, _. split; [reflexivity|].
  rewrite execute_extended_closed_cursor by done. by split.
Qed.

Lemma cursor_closed_after_session_witness :
  exists w1 e,
    (session Example.options
       (fun cur => execute_all cur [Sql.CREATE_SONGS_TABLE]) (boot ∅ 7)).1
      = w1 /\
    sqlite3.execute 0 Sql.SELECT_NUM_FINGERPRINTS w1 = (w1, Raise e) /\
    exn_class e = ProgrammingError.
Proof.
  assert (Hb : Forall (fun s => Sql.bindable s = true)
                 [Sql.CREATE_SONGS_TABLE]) by (repeat constructor).
  exact (cursor_closed_after_session Example.options Example.path
           [Sql.CREATE_SONGS_TABLE] Sql.SELECT_NUM_FINGERPRINTS (boot ∅ 7)
           eq_refl Hb).
Defined.

(** ** The post-fork hook and the [Cursor] objects there are *)

(** X22: whatever a process has done, the post-fork hook leaves every
    connection, every file and every [Cursor] object as they are; each
    [Cursor] object keeps its queue with what is on it, and none has the
    new class-level queue as its cache. *)
Theorem after_fork_keeps_instance_caches (fs : gmap string Sql.Database)
    (now : Z) (ops : list op) (self : SQLiteDatabase.t) :
  let w := run (boot fs now) ops in
  let w1 := (SQLiteDatabase.after_fork self w).1 in
  connections w1 = connections w /\ instances w1 = instances w /\
  files w1 = files w /\
  Forall (fun o => queues w1 !! CursorObj._cache o
                     = queues w !! CursorObj._cache o /\
                   Cursor_cache w1 <> Some (CursorObj._cache o))
         (instances w1).
Proof.
  intros w w1. subst w1. unfold SQLiteDatabase.after_fork.
  rewrite clear_cache_spec. cbn [fst]. split_and!; [done..|].
  assert (Hinv : inv 0 w) by apply run_keeps_inv, inv_boot.
  destruct Hinv as [_ _ _ Hi _]. cbn [instances set_Cursor_cache set_queues].
  eapply Forall_impl; [exact Hi|]. intros o [Hlt _]. cbn. split.
  - by rewrite lookup_app_l.
  - intros [= Heq]. lia.
Qed.

(** ** Idle connections, over all the queues *)






